(** * WebGL triangle demos: a shallow embedding of the three [App] classes

    The repository holds three browser programs, each one class [App] that is
    instantiated once at the end of its file:

    - [src/unnamed/part_000]: acquires the canvas and the rendering context and
      clears the screen (module [Surface]);
    - [src/src/cube.ts]: additionally compiles two shaders, links them, uploads
      one triangle and redraws it every animation frame (module [Triangle]);
    - [src/unnamed/part_001]: the same with a third coordinate and three matrix
      uniforms, the world matrix being recomputed every frame (module
      [Rotating]).

    The programs are sequences of calls into the browser.  A method is
    embedded as a function in a small monad that threads the receiver [this],
    records every call into the browser as an [Event] and stops at the first
    exception.  What the browser answers is a parameter ([Host]); so is the
    gl-matrix library ([GlMatrix]), which is imported and not part of the
    sources.  JavaScript numbers are idealised as real numbers: the
    development is about which values are passed where, not about rounding. *)

From Stdlib Require Import List String ZArith Reals Lia Lra Bool Arith.
Import ListNotations.

(** ** Values *)

(** A reference to an object of the browser.  [null] also stands for
    [undefined]: the programs only ever test such a value for truthiness or
    call a method on it. *)
Inductive ref : Type :=
| null
| obj (id : positive).

Definition truthy (r : ref) : bool :=
  match r with
  | null => false
  | obj _ => true
  end.

Definition number : Type := R.

Bind Scope R_scope with number.

(** The contents of a [Float32Array] (and of a literal [number[]]). *)
Definition Float32Array : Type := list number.

(** [new Float32Array(n)]: [n] zeros. *)
Definition Float32Array_new (n : nat) : Float32Array := repeat 0%R n.

(** [Float32Array.BYTES_PER_ELEMENT], fixed by the language. *)
Definition BYTES_PER_ELEMENT : Z := 4.

(** ** Calls into the browser *)

(** The methods of [WebGLRenderingContext] the programs call, with their
    arguments and, for the ones that return something, the answer [res]. *)
Module GL.

Inductive Call : Type :=
| clearColor (red green blue alpha : number)
| clear (mask : Z)
| createShader (type : Z) (res : ref)
| shaderSource (shader : ref) (source : string)
| compileShader (shader : ref)
| getShaderParameter (shader : ref) (pname : Z) (res : bool)
| getShaderInfoLog (shader : ref) (res : string)
| createProgram (res : ref)
| attachShader (program shader : ref)
| linkProgram (program : ref)
| getProgramParameter (program : ref) (pname : Z) (res : bool)
| getProgramInfoLog (program : ref) (res : string)
| validateProgram (program : ref)
| createBuffer (res : ref)
| bindBuffer (target : Z) (buffer : ref)
| bufferData (target : Z) (data : Float32Array) (usage : Z)
| getAttribLocation (program : ref) (name : string) (res : Z)
| vertexAttribPointer (index size type : Z) (normalized : bool) (stride offset : Z)
| enableVertexAttribArray (index : Z)
| useProgram (program : ref)
| getUniformLocation (program : ref) (name : string) (res : ref)
| uniformMatrix4fv (location : ref) (transpose : bool) (value : Float32Array)
| drawArrays (mode first count : Z).

End GL.

Inductive Event : Type :=
| EGetElementById (elementId : string) (res : ref)
| EGetContext (canvas : ref) (contextId : string) (res : ref)
| EGL (gl : ref) (call : GL.Call)
| EConsoleError (message detail : string)
| EDateNow (res : Z)
| ERequestAnimationFrame.

(** The browser.  The constants are the properties of the same name of the
    rendering context.  An answer may depend on the arguments of the call and
    on how many calls the page has made before it (the first argument), so a
    host can answer the same question differently each time. *)
Record Host : Type := {
  COLOR_BUFFER_BIT : Z;
  DEPTH_BUFFER_BIT : Z;
  VERTEX_SHADER : Z;
  FRAGMENT_SHADER : Z;
  COMPILE_STATUS : Z;
  LINK_STATUS : Z;
  VALIDATE_STATUS : Z;
  ARRAY_BUFFER : Z;
  STATIC_DRAW : Z;
  FLOAT : Z;
  TRIANGLES : Z;
  on_getElementById : nat -> string -> ref;
  on_getContext : nat -> ref -> string -> ref;
  on_createShader : nat -> ref -> Z -> ref;
  on_getShaderParameter : nat -> ref -> ref -> Z -> bool;
  on_getShaderInfoLog : nat -> ref -> ref -> string;
  on_createProgram : nat -> ref -> ref;
  on_getProgramParameter : nat -> ref -> ref -> Z -> bool;
  on_getProgramInfoLog : nat -> ref -> ref -> string;
  on_createBuffer : nat -> ref -> ref;
  on_getAttribLocation : nat -> ref -> ref -> string -> Z;
  on_getUniformLocation : nat -> ref -> ref -> string -> ref;
  on_Date_now : nat -> Z
}.

(** The functions of gl-matrix that [part_001] calls.  Each takes the contents
    of its [out] array first and returns the contents [out] has afterwards. *)
Record GlMatrix : Type := {
  mat4_identity : Float32Array -> Float32Array;
  mat4_rotate : Float32Array -> Float32Array -> number -> list number -> Float32Array;
  mat4_lookAt : Float32Array -> list number -> list number -> list number -> Float32Array;
  mat4_perspective : Float32Array -> number -> number -> number -> number -> Float32Array;
  glMatrix_toRadian : number -> number
}.

(** ** The receiver *)

(** The fields of [App].  [cube.ts] declares the first five and [running];
    [part_001] adds [worldMatrix] and [worldAttributeLocation]; [part_000]
    declares only [canvas] and [gl].  A field the class at hand does not
    declare keeps its initial value.  [worldMatrix] is [None] until the array
    is allocated. *)
Record App : Type := {
  canvas : ref;
  gl : ref;
  vertexShader : ref;
  fragmentShader : ref;
  program : ref;
  worldMatrix : option Float32Array;
  worldAttributeLocation : ref;
  running : bool
}.

(** The object [new App()] starts from: [running] has the initialiser [true],
    the other fields have none. *)
Definition new_object : App :=
  {| canvas := null; gl := null; vertexShader := null; fragmentShader := null;
     program := null; worldMatrix := None; worldAttributeLocation := null;
     running := true |}.

Definition set_canvas (v : ref) (a : App) : App :=
  {| canvas := v; gl := gl a; vertexShader := vertexShader a;
     fragmentShader := fragmentShader a; program := program a;
     worldMatrix := worldMatrix a;
     worldAttributeLocation := worldAttributeLocation a; running := running a |}.

Definition set_gl (v : ref) (a : App) : App :=
  {| canvas := canvas a; gl := v; vertexShader := vertexShader a;
     fragmentShader := fragmentShader a; program := program a;
     worldMatrix := worldMatrix a;
     worldAttributeLocation := worldAttributeLocation a; running := running a |}.

Definition set_vertexShader (v : ref) (a : App) : App :=
  {| canvas := canvas a; gl := gl a; vertexShader := v;
     fragmentShader := fragmentShader a; program := program a;
     worldMatrix := worldMatrix a;
     worldAttributeLocation := worldAttributeLocation a; running := running a |}.

Definition set_fragmentShader (v : ref) (a : App) : App :=
  {| canvas := canvas a; gl := gl a; vertexShader := vertexShader a;
     fragmentShader := v; program := program a;
     worldMatrix := worldMatrix a;
     worldAttributeLocation := worldAttributeLocation a; running := running a |}.

Definition set_program (v : ref) (a : App) : App :=
  {| canvas := canvas a; gl := gl a; vertexShader := vertexShader a;
     fragmentShader := fragmentShader a; program := v;
     worldMatrix := worldMatrix a;
     worldAttributeLocation := worldAttributeLocation a; running := running a |}.

Definition set_worldMatrix (v : option Float32Array) (a : App) : App :=
  {| canvas := canvas a; gl := gl a; vertexShader := vertexShader a;
     fragmentShader := fragmentShader a; program := program a;
     worldMatrix := v;
     worldAttributeLocation := worldAttributeLocation a; running := running a |}.

Definition set_worldAttributeLocation (v : ref) (a : App) : App :=
  {| canvas := canvas a; gl := gl a; vertexShader := vertexShader a;
     fragmentShader := fragmentShader a; program := program a;
     worldMatrix := worldMatrix a;
     worldAttributeLocation := v; running := running a |}.

Definition set_running (v : bool) (a : App) : App :=
  {| canvas := canvas a; gl := gl a; vertexShader := vertexShader a;
     fragmentShader := fragmentShader a; program := program a;
     worldMatrix := worldMatrix a;
     worldAttributeLocation := worldAttributeLocation a; running := v |}.

(** ** The monad of methods *)

Inductive Exn : Type :=
| TypeError.

Inductive Result (A : Type) : Type :=
| Ok (a : A)
| Throw (e : Exn).

Arguments Ok {A} a.
Arguments Throw {A} e.

(** A method body: from the receiver and the number of calls the page has made
    so far, to the calls it makes, the receiver afterwards and how it ends. *)
Definition M (A : Type) : Type := App -> nat -> list Event * App * Result A.

Definition ret {A : Type} (a : A) : M A :=
  fun this _ => ([], this, Ok a).

Definition throw {A : Type} (e : Exn) : M A :=
  fun this _ => ([], this, Throw e).

Definition bind {A B : Type} (m : M A) (f : A -> M B) : M B :=
  fun this n =>
    match m this n with
    | (es, this1, Ok a) =>
        match f a this1 (List.length es + n) with
        | (es', this2, r) => (es ++ es', this2, r)
        end
    | (es, this1, Throw e) => (es, this1, Throw e)
    end.

Notation "x <- m ;; k" := (bind m (fun x => k))
  (at level 61, m at next level, right associativity).
Notation "m ;; k" := (bind m (fun _ => k))
  (at level 61, right associativity).

(** Reading and writing a field of [this]. *)
Definition get {A : Type} (field : App -> A) : M A :=
  fun this _ => ([], this, Ok (field this)).

Definition put (update : App -> App) : M unit :=
  fun this _ => ([], update this, Ok tt).

(** A call that returns nothing, and one whose answer the host chooses. *)
Definition emit (e : Event) : M unit :=
  fun this _ => ([e], this, Ok tt).

Definition interact {A : Type} (answer : nat -> A) (ev : A -> Event) : M A :=
  fun this n => ([ev (answer n)], this, Ok (answer n)).

Definition events {A : Type} (out : list Event * App * Result A) : list Event :=
  fst (fst out).

Definition receiver {A : Type} (out : list Event * App * Result A) : App :=
  snd (fst out).

Definition result {A : Type} (out : list Event * App * Result A) : Result A :=
  snd out.

(** [this.gl.m(...)]: a [TypeError] when [this.gl] is null. *)
Definition gl_do (call : GL.Call) : M unit :=
  g <- get gl ;;
  match g with
  | null => throw TypeError
  | obj _ => emit (EGL g call)
  end.

Definition gl_ask {A : Type} (answer : nat -> ref -> A) (call : A -> GL.Call) : M A :=
  g <- get gl ;;
  match g with
  | null => throw TypeError
  | obj _ => interact (fun n => answer n g) (fun a => EGL g (call a))
  end.

Definition console_error (message detail : string) : M unit :=
  emit (EConsoleError message detail).

(** ** Methods the three classes share

    [setClearColor] and [clearScreen] read the same in the three files;
    [addShader], [createProgram] and [stop] read the same in [cube.ts] and
    [part_001]. *)
Module Common.

Section WithHost.

Variable host : Host.

Definition setClearColor : M unit :=
  gl_do (GL.clearColor 0.75 0.85 0.8 1).

Definition clearScreen : M unit :=
  gl_do (GL.clear (Z.lor (COLOR_BUFFER_BIT host) (DEPTH_BUFFER_BIT host))).

Definition addShader (shaderSource : string) (type : Z) : M ref :=
  shader <- gl_ask (fun n g => on_createShader host n g type) (GL.createShader type) ;;
  gl_do (GL.shaderSource shader shaderSource) ;;
  gl_do (GL.compileShader shader) ;;
  compiled <- gl_ask (fun n g => on_getShaderParameter host n g shader (COMPILE_STATUS host))
                     (GL.getShaderParameter shader (COMPILE_STATUS host)) ;;
  (if negb compiled
   then info <- gl_ask (fun n g => on_getShaderInfoLog host n g shader)
                       (GL.getShaderInfoLog shader) ;;
        console_error "Error compiling shader " info
   else ret tt) ;;
  ret shader.

(** [createShaders], given what the two getters of the class return. *)
Definition createShaders (vertexShaderSource fragmentShaderSource : string) : M unit :=
  vs <- addShader vertexShaderSource (VERTEX_SHADER host) ;;
  put (set_vertexShader vs) ;;
  fs <- addShader fragmentShaderSource (FRAGMENT_SHADER host) ;;
  put (set_fragmentShader fs).

Definition createProgram : M unit :=
  p <- gl_ask (on_createProgram host) GL.createProgram ;;
  put (set_program p) ;;
  p <- get program ;;
  vs <- get vertexShader ;;
  gl_do (GL.attachShader p vs) ;;
  p <- get program ;;
  fs <- get fragmentShader ;;
  gl_do (GL.attachShader p fs) ;;
  p <- get program ;;
  gl_do (GL.linkProgram p) ;;
  p <- get program ;;
  linked <- gl_ask (fun n g => on_getProgramParameter host n g p (LINK_STATUS host))
                   (GL.getProgramParameter p (LINK_STATUS host)) ;;
  (if negb linked
   then p <- get program ;;
        info <- gl_ask (fun n g => on_getProgramInfoLog host n g p)
                       (GL.getProgramInfoLog p) ;;
        console_error "Could not link program" info
   else ret tt) ;;
  p <- get program ;;
  gl_do (GL.validateProgram p) ;;
  p <- get program ;;
  valid <- gl_ask (fun n g => on_getProgramParameter host n g p (VALIDATE_STATUS host))
                  (GL.getProgramParameter p (VALIDATE_STATUS host)) ;;
  (if negb valid
   then p <- get program ;;
        info <- gl_ask (fun n g => on_getProgramInfoLog host n g p)
                       (GL.getProgramInfoLog p) ;;
        console_error "ERROR invalidating program" info
   else ret tt).

Definition stop : M unit :=
  put (set_running false).

(** [document.getElementById(id)] and [this.canvas.getContext(id)], the
    latter a [TypeError] when [this.canvas] is null. *)
Definition document_getElementById (elementId : string) : M ref :=
  interact (fun n => on_getElementById host n elementId) (EGetElementById elementId).

Definition canvas_getContext (contextId : string) : M ref :=
  c <- get canvas ;;
  match c with
  | null => throw TypeError
  | obj _ => interact (fun n => on_getContext host n c contextId) (EGetContext c contextId)
  end.

(** [window.requestAnimationFrame(() => loop())]; the scheduler below runs the
    callback. *)
Definition requestAnimationFrame : M unit :=
  emit ERequestAnimationFrame.

Definition Date_now : M Z :=
  interact (on_Date_now host) EDateNow.

End WithHost.

End Common.

(** ** [src/unnamed/part_000] *)
Module Surface.

Section WithHost.

Variable host : Host.

Definition constructor : M unit :=
  c <- Common.document_getElementById host "game-surface" ;;
  put (set_canvas c) ;;
  g <- Common.canvas_getContext host "webgl" ;;
  put (set_gl g) ;;
  g <- get gl ;;
  (if negb (truthy g)
   then g' <- Common.canvas_getContext host "experimental-webgl" ;;
        put (set_gl g')
   else ret tt) ;;
  Common.setClearColor ;;
  Common.clearScreen host.

End WithHost.

End Surface.

(** ** [src/src/cube.ts] *)
Module Triangle.

(** The getter [vertexShaderSource] of [cube.ts]: the template literal, character for character. *)
Definition vertexShaderSource : string :=
"
        precision mediump float;

        // input
        attribute vec2 vertPosition;
        attribute vec3 vertColor;

        // output
        varying vec3 fragColor;

        void main(){
            fragColor = vertColor;
            // 0.0 = z-index, last one always 1
            gl_Position = vec4(vertPosition, 0.0, 1.0);
        }
        "%string.

(** The getter [fragmentShaderSource] of [cube.ts]. *)
Definition fragmentShaderSource : string :=
"
        precision mediump float;

        // input
        varying vec3 fragColor;

        void main(){
            // only output from fragment shader, color of a specific pixel
            gl_FragColor = vec4(fragColor, 1.0);
        }

        "%string.

Section WithHost.

Variable host : Host.

Definition createShaders : M unit :=
  Common.createShaders host vertexShaderSource fragmentShaderSource.

(** x, y, R, G, B for each of the three corners, counter-clockwise. *)
Definition triangleVertices : list number :=
  [ 0; 0.5; 1; 0; 0;
    -0.5; -0.5; 0; 1; 0;
    0.5; -0.5; 0; 0; 1 ]%R.

Definition createBuffer : M unit :=
  triangleVertexBuffer <- gl_ask (on_createBuffer host) GL.createBuffer ;;
  gl_do (GL.bindBuffer (ARRAY_BUFFER host) triangleVertexBuffer) ;;
  gl_do (GL.bufferData (ARRAY_BUFFER host) triangleVertices (STATIC_DRAW host)) ;;
  p <- get program ;;
  positionAttributeLocation <-
    gl_ask (fun n g => on_getAttribLocation host n g p "vertPosition")
           (GL.getAttribLocation p "vertPosition") ;;
  p <- get program ;;
  colorAttributeLocation <-
    gl_ask (fun n g => on_getAttribLocation host n g p "vertColor")
           (GL.getAttribLocation p "vertColor") ;;
  gl_do (GL.vertexAttribPointer positionAttributeLocation 2 (FLOAT host) false
           (5 * BYTES_PER_ELEMENT) 0) ;;
  gl_do (GL.vertexAttribPointer colorAttributeLocation 3 (FLOAT host) false
           (5 * BYTES_PER_ELEMENT) (2 * BYTES_PER_ELEMENT)) ;;
  gl_do (GL.enableVertexAttribArray positionAttributeLocation) ;;
  gl_do (GL.enableVertexAttribArray colorAttributeLocation).

(** The closure [loop] of [mainRenderLoop]. *)
Definition loop : M unit :=
  Common.clearScreen host ;;
  p <- get program ;;
  gl_do (GL.useProgram p) ;;
  gl_do (GL.drawArrays (TRIANGLES host) 0 3) ;;
  r <- get running ;;
  if r then Common.requestAnimationFrame else ret tt.

Definition mainRenderLoop : M unit :=
  loop.

Definition constructor : M unit :=
  c <- Common.document_getElementById host "game-surface" ;;
  put (set_canvas c) ;;
  g <- Common.canvas_getContext host "webgl" ;;
  put (set_gl g) ;;
  g <- get gl ;;
  (if negb (truthy g)
   then g' <- Common.canvas_getContext host "experimental-webgl" ;;
        put (set_gl g')
   else ret tt) ;;
  Common.setClearColor ;;
  Common.clearScreen host ;;
  createShaders ;;
  Common.createProgram host ;;
  createBuffer ;;
  mainRenderLoop.

End WithHost.

End Triangle.

(** ** [src/unnamed/part_001] *)
Module Rotating.

(** The getter [vertexShaderSource] of [part_001]: the template literal, character for character. *)
Definition vertexShaderSource : string :=
"
        precision mediump float;

        // input - varying per vertex
        attribute vec3 vertPosition; // x, y and z
        attribute vec3 vertColor;

        // uniform stays the same for all vertices
        uniform mat4 matrixWorld;
        uniform mat4 matrixView;
        uniform mat4 matrixProjection; 

        // output
        varying vec3 fragColor;

        void main(){
            fragColor = vertColor;
            // 0.0 = z-index, last one always 1

            // multiply from right
            gl_Position = matrixProjection * matrixView * matrixWorld * vec4(vertPosition, 1.0);
        }
        "%string.

(** The getter [fragmentShaderSource] of [part_001]. *)
Definition fragmentShaderSource : string :=
"
        precision mediump float;

        // input
        varying vec3 fragColor;

        void main(){
            // only output from fragment shader, color of a specific pixel
            gl_FragColor = vec4(fragColor, 1.0);
        }

        "%string.

Section WithHost.

Variable host : Host.
Variable lib : GlMatrix.

Definition createShaders : M unit :=
  Common.createShaders host vertexShaderSource fragmentShaderSource.

(** x, y, z, R, G, B for each of the three corners, counter-clockwise. *)
Definition triangleVertices : list number :=
  [ 0.0; 0.5; 0.0; 1.0; 0.0; 0.0;
    -0.5; -0.5; 0.0; 0.0; 1.0; 0.0;
    0.5; -0.5; 0.0; 0.0; 0.0; 1.0 ]%R.

(** What [createBuffer] leaves in its locals [viewMatrix] and
    [projectionMatrix]. *)
Definition viewMatrix : Float32Array :=
  mat4_lookAt lib (Float32Array_new 16) [0; 0; -2]%R [0; 0; 0]%R [0; 1; 0]%R.

Definition projectionMatrix : Float32Array :=
  mat4_perspective lib (Float32Array_new 16)
    (glMatrix_toRadian lib 45) (800 / 600) 0.1 1000.1.

(** A use of [this.worldMatrix] as an array: a [TypeError] while the field is
    still undefined. *)
Definition get_worldMatrix : M Float32Array :=
  w <- get worldMatrix ;;
  match w with
  | None => throw TypeError
  | Some m => ret m
  end.

Definition createBuffer : M unit :=
  triangleVertexBuffer <- gl_ask (on_createBuffer host) GL.createBuffer ;;
  gl_do (GL.bindBuffer (ARRAY_BUFFER host) triangleVertexBuffer) ;;
  gl_do (GL.bufferData (ARRAY_BUFFER host) triangleVertices (STATIC_DRAW host)) ;;
  p <- get program ;;
  positionAttributeLocation <-
    gl_ask (fun n g => on_getAttribLocation host n g p "vertPosition")
           (GL.getAttribLocation p "vertPosition") ;;
  p <- get program ;;
  colorAttributeLocation <-
    gl_ask (fun n g => on_getAttribLocation host n g p "vertColor")
           (GL.getAttribLocation p "vertColor") ;;
  gl_do (GL.vertexAttribPointer positionAttributeLocation 3 (FLOAT host) false
           (6 * BYTES_PER_ELEMENT) 0) ;;
  gl_do (GL.vertexAttribPointer colorAttributeLocation 3 (FLOAT host) false
           (6 * BYTES_PER_ELEMENT) (3 * BYTES_PER_ELEMENT)) ;;
  gl_do (GL.enableVertexAttribArray positionAttributeLocation) ;;
  gl_do (GL.enableVertexAttribArray colorAttributeLocation) ;;
  p <- get program ;;
  gl_do (GL.useProgram p) ;;
  p <- get program ;;
  matWorldLocation <-
    gl_ask (fun n g => on_getUniformLocation host n g p "matrixWorld")
           (GL.getUniformLocation p "matrixWorld") ;;
  put (set_worldAttributeLocation matWorldLocation) ;;
  p <- get program ;;
  matViewLocation <-
    gl_ask (fun n g => on_getUniformLocation host n g p "matrixView")
           (GL.getUniformLocation p "matrixView") ;;
  p <- get program ;;
  matProjectionLocation <-
    gl_ask (fun n g => on_getUniformLocation host n g p "matrixProjection")
           (GL.getUniformLocation p "matrixProjection") ;;
  (* the local worldMatrix and this.worldMatrix are one array *)
  put (set_worldMatrix (Some (Float32Array_new 16))) ;;
  w <- get_worldMatrix ;;
  put (set_worldMatrix (Some (mat4_identity lib w))) ;;
  w <- get_worldMatrix ;;
  gl_do (GL.uniformMatrix4fv matWorldLocation false w) ;;
  gl_do (GL.uniformMatrix4fv matViewLocation false viewMatrix) ;;
  gl_do (GL.uniformMatrix4fv matProjectionLocation false projectionMatrix).

(** The local [identityMatrix] of [mainRenderLoop], which [loop] captures and
    never writes. *)
Definition identityMatrix : Float32Array :=
  mat4_identity lib (Float32Array_new 16).

(** [Date.now() / 1000 / 6 * 2 * Math.PI], the expression as the code writes
    it, read over the reals with the exact [PI].  The code evaluates it in
    doubles: the definition names the argument [loop] passes to [mat4.rotate],
    and says nothing of how that value is rounded. *)
Definition angle_at (now : Z) : number :=
  (IZR now / 1000 / 6 * 2 * PI)%R.

(** The closure [loop] of [mainRenderLoop]. *)
Definition loop : M unit :=
  now <- Common.Date_now host ;;
  let angle := angle_at now in
  w <- get_worldMatrix ;;
  put (set_worldMatrix (Some (mat4_rotate lib w identityMatrix angle [0; 1; 0]%R))) ;;
  loc <- get worldAttributeLocation ;;
  w <- get_worldMatrix ;;
  gl_do (GL.uniformMatrix4fv loc false w) ;;
  Common.clearScreen host ;;
  gl_do (GL.drawArrays (TRIANGLES host) 0 3) ;;
  r <- get running ;;
  if r then Common.requestAnimationFrame else ret tt.

Definition mainRenderLoop : M unit :=
  loop.

Definition constructor : M unit :=
  c <- Common.document_getElementById host "game-surface" ;;
  put (set_canvas c) ;;
  g <- Common.canvas_getContext host "webgl" ;;
  put (set_gl g) ;;
  g <- get gl ;;
  (if negb (truthy g)
   then g' <- Common.canvas_getContext host "experimental-webgl" ;;
        put (set_gl g')
   else ret tt) ;;
  Common.setClearColor ;;
  Common.clearScreen host ;;
  createShaders ;;
  Common.createProgram host ;;
  createBuffer ;;
  mainRenderLoop.

End WithHost.

End Rotating.

(** ** The page: objects, animation frames and the caller of [stop]

    [window.requestAnimationFrame] queues its callback; the browser later runs
    the queued callbacks one at a time, oldest first.  The only callback the
    classes ever queue is [() => loop()] of some [App], so a queue entry is the
    index of that object.  Between two callbacks other code of the page may
    call the public method [stop] of an object, or run [new App()] again. *)

Record Class : Type := {
  class_constructor : M unit;
  class_loop : M unit
}.

Definition Triangle_class (host : Host) : Class :=
  {| class_constructor := Triangle.constructor host;
     class_loop := Triangle.loop host |}.

Definition Rotating_class (host : Host) (lib : GlMatrix) : Class :=
  {| class_constructor := Rotating.constructor host lib;
     class_loop := Rotating.loop host lib |}.

Record Process : Type := {
  heap : list App;
  callbacks : list nat;
  log : list Event
}.

Definition start : Process :=
  {| heap := []; callbacks := []; log := [] |}.

Inductive Action : Type :=
| ANew
| AStop (i : nat)
| AFrame.

Definition is_requestAnimationFrame (e : Event) : bool :=
  match e with
  | ERequestAnimationFrame => true
  | _ => false
  end.

(** The callbacks a run of a method of object [i] has queued. *)
Definition scheduled (i : nat) (es : list Event) : list nat :=
  map (fun _ => i) (filter is_requestAnimationFrame es).

Fixpoint update (i : nat) (a : App) (h : list App) : list App :=
  match h, i with
  | [], _ => []
  | _ :: h', O => a :: h'
  | b :: h', S i' => b :: update i' a h'
  end.

Section Scheduler.

Variable C : Class.

(** [ANew] allocates the object before the constructor body runs, so an object
    whose constructor threw is in the heap too (the page holds no reference to
    it; the model lets [AStop] name it all the same).  An exception that
    escapes a callback ends that callback only. *)
Definition step (P : Process) (a : Action) : Process :=
  match a with
  | ANew =>
      let out := class_constructor C new_object (List.length (log P)) in
      {| heap := heap P ++ [receiver out];
         callbacks := callbacks P ++ scheduled (List.length (heap P)) (events out);
         log := log P ++ events out |}
  | AStop i =>
      match nth_error (heap P) i with
      | Some this =>
          let out := Common.stop this (List.length (log P)) in
          {| heap := update i (receiver out) (heap P);
             callbacks := callbacks P;
             log := log P ++ events out |}
      | None => P
      end
  | AFrame =>
      match callbacks P with
      | [] => P
      | i :: rest =>
          match nth_error (heap P) i with
          | Some this =>
              let out := class_loop C this (List.length (log P)) in
              {| heap := update i (receiver out) (heap P);
                 callbacks := rest ++ scheduled i (events out);
                 log := log P ++ events out |}
          | None => {| heap := heap P; callbacks := rest; log := log P |}
          end
      end
  end.

Fixpoint run (acts : list Action) (P : Process) : Process :=
  match acts with
  | [] => P
  | a :: acts' => run acts' (step P a)
  end.

(** Whether [a], taken in [P], runs the frame callback of object [i]. *)
Definition runs_frame_of (i : nat) (P : Process) (a : Action) : bool :=
  match a, callbacks P with
  | AFrame, j :: _ => Nat.eqb j i
  | _, _ => false
  end.

(** How many frames of object [i] the actions [acts] run from [P] on. *)
Fixpoint frames_run (i : nat) (acts : list Action) (P : Process) : nat :=
  match acts with
  | [] => 0
  | a :: acts' =>
      (if runs_frame_of i P a then 1 else 0) + frames_run i acts' (step P a)
  end.

End Scheduler.

(** ** Hosts and a library to run the model on

    Not part of the sources.  The constants are the values the WebGL 1.0
    specification gives them. *)

Definition string_eqb (a b : string) : bool :=
  if string_dec a b then true else false.

(** A browser with WebGL: one canvas, one context for it, a fresh object for
    every shader, program, buffer and uniform location, and shaders that
    compile. *)
Definition browser : Host :=
  {| COLOR_BUFFER_BIT := 16384;
     DEPTH_BUFFER_BIT := 256;
     VERTEX_SHADER := 35633;
     FRAGMENT_SHADER := 35632;
     COMPILE_STATUS := 35713;
     LINK_STATUS := 35714;
     VALIDATE_STATUS := 35715;
     ARRAY_BUFFER := 34962;
     STATIC_DRAW := 35044;
     FLOAT := 5126;
     TRIANGLES := 4;
     on_getElementById := fun _ elementId =>
       if string_eqb elementId "game-surface" then obj 1 else null;
     on_getContext := fun _ _ contextId =>
       if string_eqb contextId "webgl" then obj 2 else null;
     on_createShader := fun n _ _ => obj (Pos.of_nat (100 + n));
     on_getShaderParameter := fun _ _ _ _ => true;
     on_getShaderInfoLog := fun _ _ _ => ""%string;
     on_createProgram := fun n _ => obj (Pos.of_nat (100 + n));
     on_getProgramParameter := fun _ _ _ _ => true;
     on_getProgramInfoLog := fun _ _ _ => ""%string;
     on_createBuffer := fun n _ => obj (Pos.of_nat (100 + n));
     on_getAttribLocation := fun _ _ _ name =>
       if string_eqb name "vertPosition" then 0%Z
       else if string_eqb name "vertColor" then 1%Z else (-1)%Z;
     on_getUniformLocation := fun n _ _ _ => obj (Pos.of_nat (100 + n));
     on_Date_now := fun n => (1700000000000 + 16 * Z.of_nat n)%Z |}.

(** [h] with other answers to [getContext]. *)
Definition with_getContext (f : nat -> ref -> string -> ref) (h : Host) : Host :=
  {| COLOR_BUFFER_BIT := COLOR_BUFFER_BIT h;
     DEPTH_BUFFER_BIT := DEPTH_BUFFER_BIT h;
     VERTEX_SHADER := VERTEX_SHADER h;
     FRAGMENT_SHADER := FRAGMENT_SHADER h;
     COMPILE_STATUS := COMPILE_STATUS h;
     LINK_STATUS := LINK_STATUS h;
     VALIDATE_STATUS := VALIDATE_STATUS h;
     ARRAY_BUFFER := ARRAY_BUFFER h;
     STATIC_DRAW := STATIC_DRAW h;
     FLOAT := FLOAT h;
     TRIANGLES := TRIANGLES h;
     on_getElementById := on_getElementById h;
     on_getContext := f;
     on_createShader := on_createShader h;
     on_getShaderParameter := on_getShaderParameter h;
     on_getShaderInfoLog := on_getShaderInfoLog h;
     on_createProgram := on_createProgram h;
     on_getProgramParameter := on_getProgramParameter h;
     on_getProgramInfoLog := on_getProgramInfoLog h;
     on_createBuffer := on_createBuffer h;
     on_getAttribLocation := on_getAttribLocation h;
     on_getUniformLocation := on_getUniformLocation h;
     on_Date_now := on_Date_now h |}.

(** A browser that knows the context only under its older name, and one
    without WebGL. *)
Definition old_browser : Host :=
  with_getContext
    (fun _ _ contextId =>
       if string_eqb contextId "experimental-webgl" then obj 2 else null)
    browser.

Definition browser_without_webgl : Host :=
  with_getContext (fun _ _ _ => null) browser.

(** [h] with other answers to the three status queries and the two logs. *)
Definition with_status (shader_ok program_ok : nat -> bool) (info : string) (h : Host) : Host :=
  {| COLOR_BUFFER_BIT := COLOR_BUFFER_BIT h;
     DEPTH_BUFFER_BIT := DEPTH_BUFFER_BIT h;
     VERTEX_SHADER := VERTEX_SHADER h;
     FRAGMENT_SHADER := FRAGMENT_SHADER h;
     COMPILE_STATUS := COMPILE_STATUS h;
     LINK_STATUS := LINK_STATUS h;
     VALIDATE_STATUS := VALIDATE_STATUS h;
     ARRAY_BUFFER := ARRAY_BUFFER h;
     STATIC_DRAW := STATIC_DRAW h;
     FLOAT := FLOAT h;
     TRIANGLES := TRIANGLES h;
     on_getElementById := on_getElementById h;
     on_getContext := on_getContext h;
     on_createShader := on_createShader h;
     on_getShaderParameter := fun n _ _ _ => shader_ok n;
     on_getShaderInfoLog := fun _ _ _ => info;
     on_createProgram := on_createProgram h;
     on_getProgramParameter := fun n _ _ _ => program_ok n;
     on_getProgramInfoLog := fun _ _ _ => info;
     on_createBuffer := on_createBuffer h;
     on_getAttribLocation := on_getAttribLocation h;
     on_getUniformLocation := on_getUniformLocation h;
     on_Date_now := on_Date_now h |}.

(** A browser whose shader compiler rejects everything, so that nothing links
    or validates either. *)
Definition browser_rejecting_shaders : Host :=
  with_status (fun _ => false) (fun _ => false) "ERROR: 0:1: syntax error" browser.

(** The functions [part_001] imports from gl-matrix, by the formulas the
    library documents, over the reals.  [EPSILON] is the library's tolerance.
    The theorems below hold for every [GlMatrix]; this one serves to run the
    model. *)
Module Reference.

Local Open Scope R_scope.

Definition EPSILON : R := 0.000001.

Definition at_index (a : list R) (k : nat) : R := nth k a 0.

Definition identity (out : Float32Array) : Float32Array :=
  [ 1; 0; 0; 0;
    0; 1; 0; 0;
    0; 0; 1; 0;
    0; 0; 0; 1 ].

Definition rotate (out a : Float32Array) (rad : R) (axis : list R) : Float32Array :=
  let x := at_index axis 0 in
  let y := at_index axis 1 in
  let z := at_index axis 2 in
  let len := sqrt (x * x + y * y + z * z) in
  if Rlt_dec len EPSILON then out
  else
    let len := 1 / len in
    let x := x * len in
    let y := y * len in
    let z := z * len in
    let s := sin rad in
    let c := cos rad in
    let t := 1 - c in
    let a00 := at_index a 0 in let a01 := at_index a 1 in
    let a02 := at_index a 2 in let a03 := at_index a 3 in
    let a10 := at_index a 4 in let a11 := at_index a 5 in
    let a12 := at_index a 6 in let a13 := at_index a 7 in
    let a20 := at_index a 8 in let a21 := at_index a 9 in
    let a22 := at_index a 10 in let a23 := at_index a 11 in
    let b00 := x * x * t + c in
    let b01 := y * x * t + z * s in
    let b02 := z * x * t - y * s in
    let b10 := x * y * t - z * s in
    let b11 := y * y * t + c in
    let b12 := z * y * t + x * s in
    let b20 := x * z * t + y * s in
    let b21 := y * z * t - x * s in
    let b22 := z * z * t + c in
    [ a00 * b00 + a10 * b01 + a20 * b02;
      a01 * b00 + a11 * b01 + a21 * b02;
      a02 * b00 + a12 * b01 + a22 * b02;
      a03 * b00 + a13 * b01 + a23 * b02;
      a00 * b10 + a10 * b11 + a20 * b12;
      a01 * b10 + a11 * b11 + a21 * b12;
      a02 * b10 + a12 * b11 + a22 * b12;
      a03 * b10 + a13 * b11 + a23 * b12;
      a00 * b20 + a10 * b21 + a20 * b22;
      a01 * b20 + a11 * b21 + a21 * b22;
      a02 * b20 + a12 * b21 + a22 * b22;
      a03 * b20 + a13 * b21 + a23 * b22;
      at_index a 12; at_index a 13; at_index a 14; at_index a 15 ].

(** A vector scaled to length one, or the zero vector when it has no length. *)
Definition unit_or_zero (v : R * R * R) : R * R * R :=
  let '(v0, v1, v2) := v in
  let len := sqrt (v0 * v0 + v1 * v1 + v2 * v2) in
  if Req_dec_T len 0 then (0, 0, 0)
  else (v0 * (1 / len), v1 * (1 / len), v2 * (1 / len)).

Definition close (a b : R) : bool :=
  if Rlt_dec (Rabs (a - b)) EPSILON then true else false.

Definition lookAt (out : Float32Array) (eye center up : list R) : Float32Array :=
  let eyex := at_index eye 0 in
  let eyey := at_index eye 1 in
  let eyez := at_index eye 2 in
  let upx := at_index up 0 in
  let upy := at_index up 1 in
  let upz := at_index up 2 in
  let centerx := at_index center 0 in
  let centery := at_index center 1 in
  let centerz := at_index center 2 in
  if close eyex centerx && close eyey centery && close eyez centerz
  then identity out
  else
    let z0 := eyex - centerx in
    let z1 := eyey - centery in
    let z2 := eyez - centerz in
    let len := 1 / sqrt (z0 * z0 + z1 * z1 + z2 * z2) in
    let z0 := z0 * len in
    let z1 := z1 * len in
    let z2 := z2 * len in
    let '(x0, x1, x2) :=
      unit_or_zero (upy * z2 - upz * z1, upz * z0 - upx * z2, upx * z1 - upy * z0) in
    let '(y0, y1, y2) :=
      unit_or_zero (z1 * x2 - z2 * x1, z2 * x0 - z0 * x2, z0 * x1 - z1 * x0) in
    [ x0; y0; z0; 0;
      x1; y1; z1; 0;
      x2; y2; z2; 0;
      - (x0 * eyex + x1 * eyey + x2 * eyez);
      - (y0 * eyex + y1 * eyey + y2 * eyez);
      - (z0 * eyex + z1 * eyey + z2 * eyez);
      1 ].

Definition perspective (out : Float32Array) (fovy aspect near far : R) : Float32Array :=
  let f := 1 / tan (fovy / 2) in
  let nf := 1 / (near - far) in
  [ f / aspect; 0; 0; 0;
    0; f; 0; 0;
    0; 0; (far + near) * nf; -1;
    0; 0; 2 * far * near * nf; 0 ].

Definition toRadian (a : R) : R := a * (PI / 180).

End Reference.

Definition gl_matrix : GlMatrix :=
  {| mat4_identity := Reference.identity;
     mat4_rotate := Reference.rotate;
     mat4_lookAt := Reference.lookAt;
     mat4_perspective := Reference.perspective;
     glMatrix_toRadian := Reference.toRadian |}.

(** ** Vocabulary of the statements *)

(** The two classes that draw: [cube.ts] and [part_001]. *)
Inductive Variant : Type :=
| Flat
| Spinning.

Definition class_of (host : Host) (lib : GlMatrix) (v : Variant) : Class :=
  match v with
  | Flat => Triangle_class host
  | Spinning => Rotating_class host lib
  end.

Definition is_getContext (e : Event) : bool :=
  match e with
  | EGetContext _ _ _ => true
  | _ => false
  end.

Definition is_consoleError (e : Event) : bool :=
  match e with
  | EConsoleError _ _ => true
  | _ => false
  end.

Definition is_clear (e : Event) : bool :=
  match e with
  | EGL _ (GL.clear _) => true
  | _ => false
  end.

Definition is_bufferData (e : Event) : bool :=
  match e with
  | EGL _ (GL.bufferData _ _ _) => true
  | _ => false
  end.

Definition is_drawArrays (e : Event) : bool :=
  match e with
  | EGL _ (GL.drawArrays _ _ _) => true
  | _ => false
  end.

Definition is_uniformMatrix4fv (e : Event) : bool :=
  match e with
  | EGL _ (GL.uniformMatrix4fv _ _ _) => true
  | _ => false
  end.

(** A call that concerns a uniform: looking one up or writing one. *)
Definition is_uniform_call (e : Event) : bool :=
  match e with
  | EGL _ (GL.getUniformLocation _ _ _) => true
  | EGL _ (GL.uniformMatrix4fv _ _ _) => true
  | _ => false
  end.

(** How many animation frames a list of calls requests. *)
Definition requests (es : list Event) : nat :=
  List.length (filter is_requestAnimationFrame es).

(** How many callbacks of object [i] are queued. *)
Definition pending (i : nat) (P : Process) : nat :=
  List.length (filter (Nat.eqb i) (callbacks P)).

(** An object whose [loop] can run to its end: it has a context and, in
    [part_001], a world matrix. *)
Definition can_draw (v : Variant) (this : App) : bool :=
  truthy (gl this) &&
  match v with
  | Flat => true
  | Spinning => match worldMatrix this with Some _ => true | None => false end
  end.

(** What the scheduler keeps true of the queue: a queued callback belongs to
    an object that can draw, and no object has two callbacks queued. *)
Definition well_queued (v : Variant) (P : Process) : Prop :=
  (forall i, In i (callbacks P) ->
     exists this, nth_error (heap P) i = Some this /\ can_draw v this = true) /\
  (forall i, pending i P <= 1).

(** The handles of an object: every field but [running] and [worldMatrix]. *)
Definition same_handles (a b : App) : Prop :=
  canvas a = canvas b /\ gl a = gl b /\
  vertexShader a = vertexShader b /\ fragmentShader a = fragmentShader b /\
  program a = program b /\
  worldAttributeLocation a = worldAttributeLocation b.

(** What the calls [es] returned: the elements found, the contexts given, the
    shaders and the programs created. *)
Definition element_found (e : Event) : list ref :=
  match e with
  | EGetElementById _ r => [r]
  | _ => []
  end.

Definition context_given (e : Event) : list ref :=
  match e with
  | EGetContext _ _ r => [r]
  | _ => []
  end.

Definition shader_created (e : Event) : list ref :=
  match e with
  | EGL _ (GL.createShader _ r) => [r]
  | _ => []
  end.

Definition program_created (e : Event) : list ref :=
  match e with
  | EGL _ (GL.createProgram r) => [r]
  | _ => []
  end.

(** Every handle [this] holds is still unset or was returned to one of the
    calls [es]. *)
Definition own_handles (es : list Event) (this : App) : Prop :=
  In (canvas this) (null :: flat_map element_found es) /\
  In (gl this) (null :: flat_map context_given es) /\
  In (vertexShader this) (null :: flat_map shader_created es) /\
  In (fragmentShader this) (null :: flat_map shader_created es) /\
  In (program this) (null :: flat_map program_created es).

(** The index of the first element that satisfies [p]. *)
Fixpoint position (p : Event -> bool) (es : list Event) : option nat :=
  match es with
  | [] => None
  | e :: es' => if p e then Some 0 else option_map S (position p es')
  end.


(** The mask of [clearScreen]. *)
Definition color_and_depth (host : Host) : Z :=
  Z.lor (COLOR_BUFFER_BIT host) (DEPTH_BUFFER_BIT host).


Definition triangle_data (v : Variant) : list number :=
  match v with
  | Flat => Triangle.triangleVertices
  | Spinning => Rotating.triangleVertices
  end.

(** The only clear colour a call may set. *)
Definition pastel_call (e : Event) : Prop :=
  match e with
  | EGL _ (GL.clearColor r g b a) => (r = 0.75 /\ g = 0.85 /\ b = 0.8 /\ a = 1)%R
  | _ => True
  end.

(** Every call a method makes, on whatever receiver and whenever, satisfies
    [phi]. *)
Definition emits {A : Type} (phi : Event -> Prop) (m : M A) : Prop :=
  forall this n, Forall phi (events (m this n)).


(** The times [Date.now()] returned. *)
Definition time_read (e : Event) : list Z :=
  match e with
  | EDateNow t => [t]
  | _ => []
  end.

(** The answers to the status queries. *)
Definition status_read (e : Event) : list bool :=
  match e with
  | EGL _ (GL.getShaderParameter _ _ ok) => [ok]
  | EGL _ (GL.getProgramParameter _ _ ok) => [ok]
  | _ => []
  end.

(** The clear colour of the context of every object that can draw has been
    set to the pastel one. *)
Definition colour_set (v : Variant) (P : Process) : Prop :=
  forall i this,
    nth_error (heap P) i = Some this ->
    can_draw v this = true ->
    In (EGL (gl this) (GL.clearColor 0.75 0.85 0.8 1)) (log P).

(** The reading of the running flag as one flag of the page: any two objects
    of a page agree on it at all times. *)
Definition process_wide_running (C : Class) : Prop :=
  forall acts i j a b,
    nth_error (heap (run C acts start)) i = Some a ->
    nth_error (heap (run C acts start)) j = Some b ->
    running a = running b.

(** The order of a frame of [part_001] read as: clear, then upload the world
    matrix, then draw. *)
Definition clear_upload_draw (es : list Event) : Prop :=
  match position is_clear es, position is_uniformMatrix4fv es,
        position is_drawArrays es with
  | Some c, Some u, Some d => c < u /\ u < d
  | _, _, _ => False
  end.

(** The shaders an object holds. *)
Definition shaders (this : App) : list ref :=
  [vertexShader this; fragmentShader this].

(** No two objects of a page hold the same handle among [handles]: what C5
    says of the canvas, the context, the shaders and the program. *)
Definition each_owns (handles : App -> list ref) (C : Class) : Prop :=
  forall acts i j a b,
    i <> j ->
    nth_error (heap (run C acts start)) i = Some a ->
    nth_error (heap (run C acts start)) j = Some b ->
    forall s, In s (handles a) -> s <> null -> ~ In s (handles b).

(** A page whose document and canvas answer a question the same way whenever
    it is asked, as [getElementById] and [getContext] do. *)
Definition same_page_throughout (host : Host) : Prop :=
  (forall n m elementId,
     on_getElementById host n elementId = on_getElementById host m elementId) /\
  (forall n m c contextId,
     on_getContext host n c contextId = on_getContext host m c contextId).

(** A context whose [createShader] and [createProgram] make a new object at
    every call. *)
Definition fresh_objects (host : Host) : Prop :=
  (forall n m g g' t t',
     n <> m ->
     on_createShader host n g t <> null ->
     on_createShader host n g t <> on_createShader host m g' t') /\
  (forall n m g g',
     n <> m ->
     on_createProgram host n g <> null ->
     on_createProgram host n g <> on_createProgram host m g').

(** The shaders and the program [this] holds were made by the calls of the
    page from the [lo]-th to before the [hi]-th. *)
Definition made_by (host : Host) (lo hi : nat) (this : App) : Prop :=
  (forall s, In s (shaders this) -> s <> null ->
     exists m g t, lo <= m < hi /\ s = on_createShader host m g t) /\
  (program this <> null ->
     exists m g, lo <= m < hi /\ program this = on_createProgram host m g).

(** The canvas and the context every constructor gets on a page that is the
    same throughout. *)
Definition canvas_of (host : Host) : ref :=
  on_getElementById host 0 "game-surface".

Definition context_of (host : Host) : ref :=
  match canvas_of host with
  | null => null
  | obj _ =>
      let primary := on_getContext host 0 (canvas_of host) "webgl" in
      if truthy primary then primary
      else on_getContext host 0 (canvas_of host) "experimental-webgl"
  end.

(** Every object of the page holds the canvas and the context of the page. *)
Definition one_canvas (host : Host) (P : Process) : Prop :=
  forall i this,
    nth_error (heap P) i = Some this ->
    canvas this = canvas_of host /\ gl this = context_of host.

(** The objects of the page have made their shaders and programs one after
    the other, in the order of their construction. *)
Definition made_in_turn (host : Host) (P : Process) : Prop :=
  (forall i a,
     nth_error (heap P) i = Some a -> made_by host 0 (List.length (log P)) a) /\
  (forall i j a b,
     i < j ->
     nth_error (heap P) i = Some a ->
     nth_error (heap P) j = Some b ->
     exists k, made_by host 0 k a /\ made_by host k (List.length (log P)) b).

(** ** Further vocabulary *)

(** [h] with other answers to [getElementById]. *)
Definition with_getElementById (f : nat -> string -> ref) (h : Host) : Host :=
  {| COLOR_BUFFER_BIT := COLOR_BUFFER_BIT h;
     DEPTH_BUFFER_BIT := DEPTH_BUFFER_BIT h;
     VERTEX_SHADER := VERTEX_SHADER h;
     FRAGMENT_SHADER := FRAGMENT_SHADER h;
     COMPILE_STATUS := COMPILE_STATUS h;
     LINK_STATUS := LINK_STATUS h;
     VALIDATE_STATUS := VALIDATE_STATUS h;
     ARRAY_BUFFER := ARRAY_BUFFER h;
     STATIC_DRAW := STATIC_DRAW h;
     FLOAT := FLOAT h;
     TRIANGLES := TRIANGLES h;
     on_getElementById := f;
     on_getContext := on_getContext h;
     on_createShader := on_createShader h;
     on_getShaderParameter := on_getShaderParameter h;
     on_getShaderInfoLog := on_getShaderInfoLog h;
     on_createProgram := on_createProgram h;
     on_getProgramParameter := on_getProgramParameter h;
     on_getProgramInfoLog := on_getProgramInfoLog h;
     on_createBuffer := on_createBuffer h;
     on_getAttribLocation := on_getAttribLocation h;
     on_getUniformLocation := on_getUniformLocation h;
     on_Date_now := on_Date_now h |}.

(** A page that has no element "game-surface". *)
Definition page_without_canvas : Host :=
  with_getElementById (fun _ _ => null) browser.

(** The calls on a rendering context, without the context. *)
Definition gl_call (e : Event) : list GL.Call :=
  match e with
  | EGL _ call => [call]
  | _ => []
  end.


Definition is_gl (e : Event) : bool :=
  match e with
  | EGL _ _ => true
  | _ => false
  end.

(** A call on a rendering context is made on one of the contexts [known], and
    never on null. *)
Definition on_context (known : list ref) (e : Event) : Prop :=
  match e with
  | EGL g _ => g <> null /\ In g known
  | _ => True
  end.

(** The answer an event records for [getContext] is one the host gives to
    that question. *)
Definition context_answer (host : Host) (e : Event) : Prop :=
  match e with
  | EGetContext c contextId r => exists n, r = on_getContext host n c contextId
  | _ => True
  end.

(** Every call on a context is on a context the page was given, and every
    object holds such a context or none. *)
Definition contexts_known (P : Process) : Prop :=
  Forall (on_context (flat_map context_given (log P))) (log P) /\
  forall i this,
    nth_error (heap P) i = Some this ->
    gl this = null \/ In (gl this) (flat_map context_given (log P)).

(** How many numbers a position takes, and a whole vertex. *)
Definition position_size (v : Variant) : Z :=
  match v with
  | Flat => 2
  | Spinning => 3
  end.

Definition floats_per_vertex (v : Variant) : Z := position_size v + 3.

(** A [vertexAttribPointer] describes the position or the colour of the
    interleaved vertices of the class: floats, not normalized, one vertex
    apart, the position first and the colour right after it. *)
Definition layout_call (host : Host) (v : Variant) (e : Event) : Prop :=
  match e with
  | EGL _ (GL.vertexAttribPointer _ size type normalized stride offset) =>
      type = FLOAT host /\ normalized = false /\
      stride = (BYTES_PER_ELEMENT * floats_per_vertex v)%Z /\
      ((size = position_size v /\ offset = 0%Z) \/
       (size = 3%Z /\ offset = (BYTES_PER_ELEMENT * position_size v)%Z))
  | _ => True
  end.

(** The bytes a [vertexAttribPointer] makes the three vertices of a draw read
    lie inside an array buffer of [bytes] bytes. *)
Definition reads_inside (bytes : Z) (e : Event) : Prop :=
  match e with
  | EGL _ (GL.vertexAttribPointer _ size _ _ stride offset) =>
      forall k, (0 <= k < 3)%Z ->
        (0 <= offset + k * stride)%Z /\
        (offset + k * stride + size * BYTES_PER_ELEMENT <= bytes)%Z
  | _ => True
  end.

(** The programs selected by [useProgram]. *)
Definition program_used (e : Event) : list ref :=
  match e with
  | EGL _ (GL.useProgram p) => [p]
  | _ => []
  end.


(** The sources the two getters of a class return. *)
Definition vertex_source (v : Variant) : string :=
  match v with
  | Flat => Triangle.vertexShaderSource
  | Spinning => Rotating.vertexShaderSource
  end.

Definition fragment_source (v : Variant) : string :=
  match v with
  | Flat => Triangle.fragmentShaderSource
  | Spinning => Rotating.fragmentShaderSource
  end.

(** Whether [text] occurs in [source]. *)
Definition occurs (text source : string) : bool :=
  match String.index 0 text source with
  | Some _ => true
  | None => false
  end.

(** The declaration of an attribute of [size] components in GLSL. *)
Definition attribute_declaration (size : Z) (name : string) : string :=
  ("attribute vec" ++ (match size with 2%Z => "2" | 3%Z => "3" | _ => "4" end)
     ++ " " ++ name ++ ";")%string.

Definition uniform_declaration (name : string) : string :=
  ("uniform mat4 " ++ name ++ ";")%string.




(** The sources handed to [shaderSource]. *)
Definition source_given (e : Event) : list string :=
  match e with
  | EGL _ (GL.shaderSource _ source) => [source]
  | _ => []
  end.

(** The corner [k] of the triangle of a class, (x, y), and twice the signed
    area of a triangle: positive when its corners run counter-clockwise. *)
Definition corner (v : Variant) (k : nat) : R * R :=
  let d := triangle_data v in
  let s := Z.to_nat (floats_per_vertex v) in
  (nth (k * s) d 0%R, nth (k * s + 1) d 0%R).

Definition colour (v : Variant) (k : nat) : R * R * R :=
  let d := triangle_data v in
  let s := Z.to_nat (floats_per_vertex v) in
  let c := k * s + Z.to_nat (position_size v) in
  (nth c d 0%R, nth (c + 1) d 0%R, nth (c + 2) d 0%R).

Definition twice_signed_area (a b c : R * R) : R :=
  ((fst b - fst a) * (snd c - snd a) - (fst c - fst a) * (snd b - snd a))%R.

(** What the calls [es] do to shaders and programs, the status queries and
    the logs apart. *)
Inductive ShaderCall : Type :=
| Created (type : Z) (shader : ref)
| Source (shader : ref) (source : string)
| Compiled (shader : ref)
| ProgramCreated (program : ref)
| Attached (program shader : ref)
| Linked (program : ref)
| Validated (program : ref).

Definition shader_call (e : Event) : list ShaderCall :=
  match e with
  | EGL _ (GL.createShader type r) => [Created type r]
  | EGL _ (GL.shaderSource s source) => [Source s source]
  | EGL _ (GL.compileShader s) => [Compiled s]
  | EGL _ (GL.createProgram r) => [ProgramCreated r]
  | EGL _ (GL.attachShader p s) => [Attached p s]
  | EGL _ (GL.linkProgram p) => [Linked p]
  | EGL _ (GL.validateProgram p) => [Validated p]
  | _ => []
  end.

(** The object an event shows the browser returning, and the objects an event
    shows the page passing to the browser. *)
Definition handles_returned (e : Event) : list ref :=
  match e with
  | EGetElementById _ r => [r]
  | EGetContext _ _ r => [r]
  | EGL _ (GL.createShader _ r) => [r]
  | EGL _ (GL.createProgram r) => [r]
  | EGL _ (GL.createBuffer r) => [r]
  | EGL _ (GL.getUniformLocation _ _ r) => [r]
  | _ => []
  end.

Definition handles_passed (call : GL.Call) : list ref :=
  match call with
  | GL.shaderSource s _ => [s]
  | GL.compileShader s => [s]
  | GL.getShaderParameter s _ _ => [s]
  | GL.getShaderInfoLog s _ => [s]
  | GL.attachShader p s => [p; s]
  | GL.linkProgram p => [p]
  | GL.getProgramParameter p _ _ => [p]
  | GL.getProgramInfoLog p _ => [p]
  | GL.validateProgram p => [p]
  | GL.bindBuffer _ b => [b]
  | GL.getAttribLocation p _ _ => [p]
  | GL.useProgram p => [p]
  | GL.getUniformLocation p _ _ => [p]
  | GL.uniformMatrix4fv location _ _ => [location]
  | _ => []
  end.

Definition handles_used (e : Event) : list ref :=
  match e with
  | EGetContext c _ _ => [c]
  | EGL g call => g :: handles_passed call
  | _ => []
  end.

(** Every object an event of [es] uses is in [known] or was returned by an
    earlier event of [es]. *)
Fixpoint in_order (known : list ref) (es : list Event) : Prop :=
  match es with
  | [] => True
  | e :: es' =>
      (forall r, In r (handles_used e) -> In r known) /\
      in_order (handles_returned e ++ known) es'
  end.

(** The handles a frame of an object uses have been returned by the calls
    [es]. *)
Definition handles_known (v : Variant) (es : list Event) (this : App) : Prop :=
  In (gl this) (flat_map handles_returned es) /\
  In (program this) (flat_map handles_returned es) /\
  (v = Spinning -> In (worldAttributeLocation this) (flat_map handles_returned es)).

(** * Facts *)

(** ** Running a method by hand

    [exec] unfolds the methods and the monad and computes; where the outcome
    depends on an answer of the host or on a field of the receiver it splits
    the goal over the cases. *)

Create HintDb methods.

#[global] Hint Unfold
  Common.setClearColor Common.clearScreen Common.addShader
  Common.createShaders Common.createProgram Common.stop
  Common.document_getElementById Common.canvas_getContext
  Common.requestAnimationFrame Common.Date_now
  Surface.constructor
  Triangle.createShaders Triangle.createBuffer Triangle.loop
  Triangle.mainRenderLoop Triangle.constructor
  Rotating.createShaders Rotating.get_worldMatrix Rotating.createBuffer
  Rotating.loop Rotating.mainRenderLoop Rotating.constructor
  gl_do gl_ask console_error bind ret throw get put emit interact
  events receiver result requests : methods.

Ltac split_answers :=
  match goal with
  | |- context [truthy ?x] => destruct x eqn:?
  | |- context [match ?x with null => _ | obj _ => _ end] => destruct x eqn:?
  | |- context [negb ?b] => destruct b eqn:?
  | |- context [if ?b then _ else _] =>
      lazymatch b with
      | context [if _ then _ else _] => fail
      | _ => destruct b eqn:?
      end
  | |- context [match ?x with None => _ | Some _ => _ end] => destruct x eqn:?
  end.

Ltac exec := autounfold with methods; cbn; repeat (split_answers; cbn).

(** The same for a long method: [out] is run once, whatever the goal says of
    it, and the goal is then read at every outcome. *)
Ltac exec_in out :=
  pattern out;
  match goal with
  | |- ?Q _ =>
      let q := fresh "Q" in
      let e := fresh "HQ" in
      remember Q as q eqn:e;
      autounfold with methods; vm_compute;
      repeat (split_answers; vm_compute);
      subst q; cbn
  end.

(** Rewrites with the answers [exec_in] has fixed. *)
Ltac use_answers :=
  repeat match goal with
         | H : ?x = obj _, H' : ?x = null |- _ => congruence
         | H : ?x = obj ?a, H' : ?x = obj ?b |- _ =>
             assert (a = b) by congruence; subst a; clear H
         | H : ?x = _ |- context [?x] => rewrite H
         end.

Ltac unfold_class :=
  unfold class_of, Triangle_class, Rotating_class, class_constructor, class_loop.

Ltac unfold_calls :=
  unfold Surface.constructor, Triangle.constructor, Rotating.constructor,
    Triangle.mainRenderLoop, Rotating.mainRenderLoop, Triangle.loop, Rotating.loop,
    Triangle.createBuffer, Rotating.createBuffer, Rotating.get_worldMatrix,
    Triangle.createShaders, Rotating.createShaders, Common.createShaders,
    Common.addShader, Common.createProgram, Common.setClearColor,
    Common.clearScreen, Common.document_getElementById, Common.canvas_getContext,
    Common.requestAnimationFrame, Common.Date_now, Common.stop, console_error.

(** ** Lists *)

Lemma option_map_some :
  forall (A B : Type) (f : A -> B) (o : option A) (y : B),
    option_map f o = Some y -> exists x, o = Some x /\ f x = y.
Proof.
  intros A B f [x|] y H; simpl in H; [|discriminate].
  exists x. split; congruence.
Qed.

Lemma nth_error_update_same :
  forall h i a b, nth_error h i = Some b -> nth_error (update i a h) i = Some a.
Proof.
  induction h as [|c h IH]; intros [|i] a b H; simpl in *; try discriminate; eauto.
Qed.

Lemma nth_error_update_other :
  forall h i j a, i <> j -> nth_error (update i a h) j = nth_error h j.
Proof.
  induction h as [|c h IH]; intros [|i] [|j] a H; simpl; auto; congruence.
Qed.

Lemma length_update :
  forall h i a, List.length (update i a h) = List.length h.
Proof.
  induction h as [|c h IH]; intros [|i] a; simpl; auto.
Qed.

Lemma nth_error_snoc_old :
  forall (h : list App) a j b, nth_error h j = Some b -> nth_error (h ++ [a]) j = Some b.
Proof.
  intros h a j b H. rewrite nth_error_app1; auto.
  apply nth_error_Some. congruence.
Qed.

Lemma nth_error_snoc_new :
  forall (h : list App) a, nth_error (h ++ [a]) (List.length h) = Some a.
Proof.
  intros h a. rewrite nth_error_app2 by lia. now rewrite Nat.sub_diag.
Qed.

(** ** The frame callback, run once *)

Section Frames.

Variable host : Host.
Variable lib : GlMatrix.

(** A frame of [cube.ts] on an object with a context. *)
Lemma Triangle_loop_runs :
  forall this n g,
    gl this = obj g ->
    Triangle.loop host this n =
      ([ EGL (obj g) (GL.clear (color_and_depth host));
         EGL (obj g) (GL.useProgram (program this));
         EGL (obj g) (GL.drawArrays (TRIANGLES host) 0 3) ]
         ++ (if running this then [ERequestAnimationFrame] else []),
       this, Ok tt).
Proof.
  intros [c g' vs fs p w l r] n g H. simpl in H. subst g'.
  destruct r; reflexivity.
Qed.

(** A frame of [part_001] on an object with a context and a world matrix. *)
Lemma Rotating_loop_runs :
  forall this n g w,
    gl this = obj g ->
    worldMatrix this = Some w ->
    let now := on_Date_now host n in
    let m := mat4_rotate lib w (Rotating.identityMatrix lib)
               (Rotating.angle_at now) [0; 1; 0]%R in
    Rotating.loop host lib this n =
      ([ EDateNow now;
         EGL (obj g) (GL.uniformMatrix4fv (worldAttributeLocation this) false m);
         EGL (obj g) (GL.clear (color_and_depth host));
         EGL (obj g) (GL.drawArrays (TRIANGLES host) 0 3) ]
         ++ (if running this then [ERequestAnimationFrame] else []),
       set_worldMatrix (Some m) this, Ok tt).
Proof.
  intros [c g' vs fs p w' l r] n g w H Hw. simpl in H, Hw. subst g' w'.
  destruct r; reflexivity.
Qed.

(** A frame writes no field but the world matrix. *)
Lemma loop_keeps_handles :
  forall v this n,
    let this' := receiver (class_loop (class_of host lib v) this n) in
    same_handles this this' /\ running this' = running this.
Proof.
  intros [|] [c g vs fs p w l r] n; unfold same_handles; simpl.
  - destruct g; [now exec|]. destruct r; cbn; auto 10.
  - destruct w as [w|]; [|now exec].
    destruct g; [now exec|]. destruct r; cbn; auto 10.
Qed.

Lemma loop_keeps_can_draw :
  forall v this n,
    can_draw v (receiver (class_loop (class_of host lib v) this n)) = can_draw v this.
Proof.
  intros [|] [c g vs fs p w l r] n; simpl.
  - destruct g; [reflexivity|]. destruct r; reflexivity.
  - destruct w as [w|]; [|reflexivity].
    destruct g; [reflexivity|]. destruct r; reflexivity.
Qed.

(** A frame asks for the next one exactly when it got to its end and found
    the flag set. *)
Lemma loop_requests :
  forall v this n,
    requests (events (class_loop (class_of host lib v) this n)) =
      if can_draw v this && running this then 1 else 0.
Proof.
  intros [|] [c g vs fs p w l r] n; simpl.
  - destruct g; [reflexivity|]. destruct r; reflexivity.
  - destruct w as [w|]; [|destruct g; reflexivity].
    destruct g; [reflexivity|]. destruct r; reflexivity.
Qed.

End Frames.

(** ** The constructor, run once *)

Section Constructors.

Variable host : Host.
Variable lib : GlMatrix.

(** [new App()] leaves the flag set, and has asked for a second frame exactly
    when the object it leaves can draw. *)
Lemma constructor_requests :
  forall v n,
    let out := class_constructor (class_of host lib v) new_object n in
    running (receiver out) = true /\
    requests (events out) = if can_draw v (receiver out) then 1 else 0.
Proof.
  intros [|] n; unfold class_of, Triangle_class, Rotating_class, class_constructor,
    can_draw.
  - exec_in (Triangle.constructor host new_object n); split; reflexivity.
  - exec_in (Rotating.constructor host lib new_object n); split; reflexivity.
Qed.

End Constructors.

(** ** The page *)

Section Pages.

Variable host : Host.
Variable lib : GlMatrix.
Variable v : Variant.

Local Abbreviation C := (class_of host lib v).

Lemma pending_app :
  forall i h l cs cs',
    pending i {| heap := h; callbacks := cs ++ cs'; log := l |} =
    List.length (filter (Nat.eqb i) cs) + List.length (filter (Nat.eqb i) cs').
Proof.
  intros. unfold pending. simpl. now rewrite filter_app, length_app.
Qed.

Lemma scheduled_of_other :
  forall i j es, i <> j -> filter (Nat.eqb i) (scheduled j es) = [].
Proof.
  intros i j es H. unfold scheduled.
  induction (filter is_requestAnimationFrame es) as [|e l IH]; simpl; auto.
  destruct (Nat.eqb_spec i j); [contradiction|assumption].
Qed.

Lemma scheduled_of_same :
  forall i es, List.length (filter (Nat.eqb i) (scheduled i es)) = requests es.
Proof.
  intros i es. unfold scheduled, requests.
  induction (filter is_requestAnimationFrame es) as [|e l IH]; simpl; auto.
  rewrite Nat.eqb_refl. simpl. now rewrite IH.
Qed.

Lemma pending_none :
  forall i P, ~ In i (callbacks P) -> pending i P = 0.
Proof.
  intros i P H. unfold pending.
  induction (callbacks P) as [|j cs IH]; simpl in *; auto.
  destruct (Nat.eqb_spec i j); [subst; tauto|]. apply IH. tauto.
Qed.

Lemma in_scheduled :
  forall i j es, In i (scheduled j es) -> i = j /\ requests es <> 0.
Proof.
  intros i j es H. unfold scheduled, requests in *.
  destruct (filter is_requestAnimationFrame es) as [|e l]; simpl in *; [tauto|].
  split; [|discriminate].
  destruct H as [H|H]; [auto|]. apply in_map_iff in H. now destruct H as [_ [H _]].
Qed.

(** *** The invariant of the queue *)

Lemma well_queued_start : well_queued v start.
Proof.
  split; intros i; simpl; [tauto|]. unfold pending. simpl. lia.
Qed.

Lemma well_queued_step :
  forall P a, well_queued v P -> well_queued v (step C P a).
Proof.
  intros [h cs l] a [Hdraw Hone]. simpl in Hdraw.
  destruct a as [|i|]; simpl.
  - (* new App() *)
    destruct (constructor_requests host lib v (List.length l)) as [_ Hreq].
    simpl in Hreq. split; simpl.
    + intros i Hi. apply in_app_or in Hi. destruct Hi as [Hi|Hi].
      * destruct (Hdraw i Hi) as [this [Hn Hc]]. exists this. split; auto.
        now apply nth_error_snoc_old.
      * apply in_scheduled in Hi. destruct Hi as [-> Hi].
        eexists. split; [apply nth_error_snoc_new|].
        destruct (can_draw v _); [reflexivity|]. now rewrite Hreq in Hi.
    + intros i. rewrite pending_app.
      destruct (Nat.eq_dec i (List.length h)) as [->|Hne].
      * rewrite scheduled_of_same.
        assert (Hnone : pending (List.length h) {| heap := h; callbacks := cs; log := l |} = 0).
        { apply pending_none. simpl. intros Hin.
          destruct (Hdraw _ Hin) as [this [Hn _]].
          assert (Hlt : List.length h < List.length h)
            by (apply nth_error_Some; congruence).
          lia. }
        unfold pending in Hnone. simpl in Hnone. rewrite Hnone, Hreq.
        destruct (can_draw v _); simpl; lia.
      * rewrite scheduled_of_other by assumption. simpl. rewrite Nat.add_0_r.
        apply (Hone i).
  - (* stop() *)
    destruct (nth_error h i) as [this|] eqn:Hi; [|now split].
    split; simpl; [|apply Hone].
    intros j Hj. destruct (Hdraw j Hj) as [that [Hn Hc]].
    destruct (Nat.eq_dec i j) as [->|Hne].
    + eexists. split; [eapply nth_error_update_same; eauto|].
      rewrite Hn in Hi. inversion Hi. subst that.
      destruct this; exact Hc.
    + exists that. split; [|assumption].
      now rewrite nth_error_update_other.
  - (* an animation frame *)
    destruct cs as [|i rest]; [now split|].
    assert (Hrest : List.length (filter (Nat.eqb i) rest) = 0).
    { specialize (Hone i). unfold pending in Hone. simpl in Hone.
      rewrite Nat.eqb_refl in Hone. simpl in Hone. lia. }
    assert (Hothers : forall j, List.length (filter (Nat.eqb j) rest) <= 1).
    { intros j. specialize (Hone j). unfold pending in Hone. simpl in Hone.
      destruct (Nat.eqb j i); simpl in Hone; lia. }
    destruct (nth_error h i) as [this|] eqn:Hi.
    + split; simpl.
      * intros j Hj.
        assert (Hin : In j (i :: rest)).
        { apply in_app_or in Hj. destruct Hj as [Hj|Hj]; [now right|].
          apply in_scheduled in Hj. left. symmetry. apply Hj. }
        destruct (Hdraw j Hin) as [that [Hn Hc]].
        destruct (Nat.eq_dec i j) as [->|Hne].
        -- eexists. split; [eapply nth_error_update_same; eauto|].
           rewrite loop_keeps_can_draw. congruence.
        -- exists that. split; [|assumption].
           now rewrite nth_error_update_other.
      * intros j. rewrite pending_app.
        destruct (Nat.eq_dec j i) as [->|Hne].
        -- rewrite Hrest, scheduled_of_same, loop_requests.
           destruct (can_draw v this && running this); simpl; lia.
        -- rewrite scheduled_of_other by assumption. simpl. rewrite Nat.add_0_r.
           apply Hothers.
    + split; simpl; [|exact Hothers].
      intros j Hj. apply Hdraw. now right.
Qed.

Lemma well_queued_run :
  forall acts P, well_queued v P -> well_queued v (run C acts P).
Proof.
  induction acts as [|a acts IH]; intros P H; simpl; auto using well_queued_step.
Qed.

Lemma well_queued_reachable :
  forall acts, well_queued v (run C acts start).
Proof.
  intros. apply well_queued_run, well_queued_start.
Qed.

End Pages.

Section Objects.

Variable host : Host.
Variable lib : GlMatrix.
Variable v : Variant.

Local Abbreviation C := (class_of host lib v).

Lemma set_running_same :
  forall this, set_running (running this) this = this.
Proof. now intros []. Qed.

(** What one action of the page does to an object that exists already. *)
Lemma step_object :
  forall P a j this,
    nth_error (heap P) j = Some this ->
    nth_error (heap (step C P a)) j =
      Some match a with
           | ANew => this
           | AStop i => if Nat.eqb i j then set_running false this else this
           | AFrame =>
               match callbacks P with
               | i :: _ =>
                   if Nat.eqb i j
                   then receiver (class_loop C this (List.length (log P)))
                   else this
               | [] => this
               end
           end.
Proof.
  intros [h cs l] a j this Hj. simpl in Hj. destruct a as [|i|]; simpl.
  - now apply nth_error_snoc_old.
  - destruct (Nat.eqb_spec i j) as [->|Hne].
    + rewrite Hj. simpl. eapply nth_error_update_same; eauto.
    + destruct (nth_error h i); simpl; [|assumption].
      now rewrite nth_error_update_other.
  - destruct cs as [|i rest]; simpl; [assumption|].
    destruct (Nat.eqb_spec i j) as [->|Hne].
    + rewrite Hj. simpl. eapply nth_error_update_same; eauto.
    + destruct (nth_error h i); simpl; [|assumption].
      now rewrite nth_error_update_other.
Qed.

(** An action keeps the handles of every object, and never sets a flag. *)
Lemma step_keeps :
  forall P a j this,
    nth_error (heap P) j = Some this ->
    exists this',
      nth_error (heap (step C P a)) j = Some this' /\
      same_handles this this' /\
      (running this = false -> running this' = false).
Proof.
  intros P a j this Hj. eexists. split; [apply step_object; eassumption|].
  assert (Hsame : same_handles this this) by (unfold same_handles; auto 10).
  destruct a as [|i|].
  - auto.
  - destruct (Nat.eqb i j); [|auto].
    split; [destruct this; exact Hsame|reflexivity].
  - destruct (callbacks P) as [|i rest]; [auto|].
    destruct (Nat.eqb i j); [|auto].
    destruct (loop_keeps_handles host lib v this (List.length (log P))) as [Hh Hr].
    split; [exact Hh|]. intros H. now rewrite Hr.
Qed.

Lemma run_keeps :
  forall acts P j this,
    nth_error (heap P) j = Some this ->
    exists this',
      nth_error (heap (run C acts P)) j = Some this' /\
      same_handles this this' /\
      (running this = false -> running this' = false).
Proof.
  induction acts as [|a acts IH]; intros P j this Hj; simpl.
  - exists this. unfold same_handles. auto 10.
  - destruct (step_keeps P a j this Hj) as [mid [Hmid [Hh Hr]]].
    destruct (IH _ _ _ Hmid) as [this' [Hthis' [Hh' Hr']]].
    exists this'. split; [assumption|]. split; [|auto].
    unfold same_handles in *. intuition congruence.
Qed.

(** An object whose flag is down runs no more frames than it has callbacks
    queued. *)
Lemma stopped_frames_bound :
  forall acts P i this,
    nth_error (heap P) i = Some this ->
    running this = false ->
    frames_run C i acts P <= pending i P.
Proof.
  induction acts as [|a acts IH]; intros P i this Hi Hr; simpl; [lia|].
  destruct (step_keeps P a i this Hi) as [this' [Hi' [_ Hr']]].
  specialize (IH _ _ _ Hi' (Hr' Hr)).
  assert (Hlt : i < List.length (heap P)) by (apply nth_error_Some; congruence).
  destruct P as [h cs l]. simpl in Hi, Hlt.
  destruct a as [|j|].
  - simpl in IH |- *. rewrite pending_app in IH.
    rewrite scheduled_of_other in IH by lia.
    unfold pending. simpl in *. lia.
  - simpl in IH |- *. destruct (nth_error h j); exact IH.
  - destruct cs as [|j rest]; [exact IH|].
    simpl in IH |- *. unfold pending at 1. simpl.
    destruct (Nat.eqb_spec j i) as [->|Hne].
    + rewrite Nat.eqb_refl. rewrite Hi in IH |- *. rewrite pending_app in IH.
      rewrite scheduled_of_same, loop_requests, Hr, andb_false_r in IH.
      simpl. lia.
    + destruct (Nat.eqb_spec i j) as [->|_]; [congruence|].
      destruct (nth_error h j).
      * rewrite pending_app in IH. rewrite scheduled_of_other in IH by congruence.
        simpl in IH. lia.
      * unfold pending in IH. simpl in IH. lia.
Qed.

(** A frame of an object that can draw: everything up to the draw is there
    whatever the flag says, and the flag decides only what follows. *)
Lemma frame_shape :
  forall this n,
    can_draw v this = true ->
    exists drawn,
      requests drawn = 0 /\
      forall b,
        events (class_loop C (set_running b this) n) =
          drawn ++ [EGL (gl this) (GL.drawArrays (TRIANGLES host) 0 3)]
                ++ (if b then [ERequestAnimationFrame] else []).
Proof.
  intros [c g vs fs p w l r] n Hc. unfold can_draw in Hc. simpl in Hc.
  destruct g as [|g]; [discriminate|]. destruct v.
  - eexists. split; [|intros b; unfold set_running; simpl;
      erewrite Triangle_loop_runs by reflexivity; simpl;
      instantiate (1 := [_; _]); reflexivity].
    reflexivity.
  - destruct w as [w|]; [|discriminate].
    eexists. split; [|intros b; unfold set_running; simpl;
      erewrite Rotating_loop_runs by reflexivity; simpl;
      instantiate (1 := [_; _; _]); reflexivity].
    reflexivity.
Qed.

End Objects.

Section Stopping.

Variable host : Host.
Variable lib : GlMatrix.
Variable v : Variant.

Local Abbreviation C := (class_of host lib v).

Lemma step_frame :
  forall P j rest this,
    callbacks P = j :: rest ->
    nth_error (heap P) j = Some this ->
    let out := class_loop C this (List.length (log P)) in
    step C P AFrame =
      {| heap := update j (receiver out) (heap P);
         callbacks := rest ++ scheduled j (events out);
         log := log P ++ events out |}.
Proof.
  intros P j rest this Hc Hj. simpl. now rewrite Hc, Hj.
Qed.

Lemma update_twice :
  forall h i a, update i a (update i a h) = update i a h.
Proof.
  induction h as [|b h IH]; intros [|i] a; simpl; auto. now rewrite IH.
Qed.

Lemma stop_twice :
  forall P i, step C (step C P (AStop i)) (AStop i) = step C P (AStop i).
Proof.
  intros [h cs l] i. simpl.
  destruct (nth_error h i) as [this|] eqn:Hi; simpl; [|now rewrite Hi].
  erewrite nth_error_update_same by eassumption.
  simpl. now rewrite update_twice, !app_nil_r.
Qed.

End Stopping.

(** ** What every call of a method looks like *)

Section Emits.

Variable phi : Event -> Prop.

Lemma emits_ret : forall (A : Type) (a : A), emits phi (ret a).
Proof. intros A a this n. constructor. Qed.

Lemma emits_throw : forall (A : Type) (e : Exn), emits phi (@throw A e).
Proof. intros A e this n. constructor. Qed.

Lemma emits_get : forall (A : Type) (field : App -> A), emits phi (get field).
Proof. intros A field this n. constructor. Qed.

Lemma emits_put : forall update, emits phi (put update).
Proof. intros update this n. constructor. Qed.

Lemma emits_emit : forall e, phi e -> emits phi (emit e).
Proof. intros e H this n. repeat constructor. exact H. Qed.

Lemma emits_interact :
  forall (A : Type) (answer : nat -> A) (ev : A -> Event),
    (forall a, phi (ev a)) -> emits phi (interact answer ev).
Proof. intros A answer ev H this n. repeat constructor. apply H. Qed.

Lemma emits_bind :
  forall (A B : Type) (m : M A) (f : A -> M B),
    emits phi m -> (forall a, emits phi (f a)) -> emits phi (bind m f).
Proof.
  intros A B m f Hm Hf this n. unfold bind, events.
  specialize (Hm this n). unfold events in Hm.
  destruct (m this n) as [[es this1] [a|e]]; simpl in *; [|exact Hm].
  specialize (Hf a this1 (List.length es + n)). unfold events in Hf.
  destruct (f a this1 (List.length es + n)) as [[es' this2] r]. simpl in *.
  apply Forall_app. split; assumption.
Qed.

Lemma emits_gl_do :
  forall call, (forall g, phi (EGL g call)) -> emits phi (gl_do call).
Proof.
  intros call H. unfold gl_do. apply emits_bind; [apply emits_get|].
  intros [|g]; [apply emits_throw|apply emits_emit, H].
Qed.

Lemma emits_gl_ask :
  forall (A : Type) (answer : nat -> ref -> A) (call : A -> GL.Call),
    (forall g a, phi (EGL g (call a))) -> emits phi (gl_ask answer call).
Proof.
  intros A answer call H. unfold gl_ask. apply emits_bind; [apply emits_get|].
  intros [|g]; [apply emits_throw|apply emits_interact]. intros a. apply H.
Qed.

End Emits.

(** Splits a method into its calls; what is left to show is [phi] of each
    call. *)
Ltac each_call :=
  repeat first
    [ apply emits_bind; [|intro]
    | apply emits_ret
    | apply emits_throw
    | apply emits_get
    | apply emits_put
    | apply emits_gl_do; intro
    | apply emits_gl_ask; intros
    | apply emits_emit
    | apply emits_interact; intro
    | match goal with
      | |- emits _ (if ?b then _ else _) => destruct b
      | |- emits _ (match ?x with null => _ | obj _ => _ end) => destruct x
      | |- emits _ (match ?x with None => _ | Some _ => _ end) => destruct x
      end ].

Section Calls.

Variable host : Host.
Variable lib : GlMatrix.
Variable v : Variant.

Local Abbreviation C := (class_of host lib v).



(** No colour but the pastel one is ever set. *)
Lemma constructor_pastel_calls : emits pastel_call (class_constructor C).
Proof.
  destruct v; unfold_class; unfold_calls; each_call;
    first [exact I | repeat split; reflexivity].
Qed.

Lemma loop_pastel_calls : emits pastel_call (class_loop C).
Proof.
  destruct v; unfold_class; unfold_calls; each_call;
    first [exact I | repeat split; reflexivity].
Qed.


(** What holds of every call of the constructor and of the frame callback
    holds of every call a page ever makes. *)
Lemma log_emits :
  forall phi,
    emits phi (class_constructor C) ->
    emits phi (class_loop C) ->
    forall acts P, Forall phi (log P) -> Forall phi (log (run C acts P)).
Proof.
  intros phi Hc Hl. induction acts as [|a acts IH]; intros P HP; simpl; auto.
  apply IH. destruct a as [|i|]; simpl.
  - apply Forall_app. split; [assumption|apply Hc].
  - destruct (nth_error (heap P) i); simpl; [|assumption].
    now rewrite app_nil_r.
  - destruct (callbacks P) as [|i rest]; [assumption|].
    destruct (nth_error (heap P) i); simpl; [|assumption].
    apply Forall_app. split; [assumption|apply Hl].
Qed.

Lemma filter_none :
  forall (p : Event -> bool) es, Forall (fun e => p e = false) es -> filter p es = [].
Proof.
  intros p es H. induction H as [|e es He _ IH]; simpl; auto. now rewrite He.
Qed.

End Calls.

(** ** The constructor, further *)

Lemma constructor_own_handles :
  forall host lib v n,
    let out := class_constructor (class_of host lib v) new_object n in
    own_handles (events out) (receiver out).
Proof.
  intros host lib [|] n;
    unfold class_of, Triangle_class, Rotating_class, class_constructor, own_handles.
  - exec_in (Triangle.constructor host new_object n); tauto.
  - exec_in (Rotating.constructor host lib new_object n); tauto.
Qed.


Lemma constructor_first_frame :
  forall host lib n,
    let out := Rotating.constructor host lib new_object n in
    match flat_map time_read (events out) with
    | [] => result out = Throw TypeError
    | [now] =>
        result out = Ok tt /\
        worldMatrix (receiver out) =
          Some (mat4_rotate lib (Rotating.identityMatrix lib) (Rotating.identityMatrix lib)
                  (Rotating.angle_at now) [0; 1; 0]%R)
    | _ => False
    end.
Proof.
  intros host lib n.
  exec_in (Rotating.constructor host lib new_object n);
    first [reflexivity | split; reflexivity].
Qed.

(** ** Shaders and programs that fail *)

Section Failures.

Variable host : Host.

Lemma addShader_runs :
  forall source type this n g,
    gl this = obj g ->
    let shader := on_createShader host n (obj g) type in
    let compiled :=
      on_getShaderParameter host (3 + n) (obj g) shader (COMPILE_STATUS host) in
    let info := on_getShaderInfoLog host (4 + n) (obj g) shader in
    Common.addShader host source type this n =
      ([ EGL (obj g) (GL.createShader type shader);
         EGL (obj g) (GL.shaderSource shader source);
         EGL (obj g) (GL.compileShader shader);
         EGL (obj g) (GL.getShaderParameter shader (COMPILE_STATUS host) compiled) ]
         ++ (if compiled then []
             else [ EGL (obj g) (GL.getShaderInfoLog shader info);
                    EConsoleError "Error compiling shader " info ]),
       this, Ok shader).
Proof.
  intros source type [c g' vs fs p w l r] n g H. simpl in H. subst g'.
  cbv zeta. autounfold with methods. cbn.
  destruct (on_getShaderParameter host (S (S (S n))) (obj g)
              (on_createShader host n (obj g) type) (COMPILE_STATUS host));
    reflexivity.
Qed.

Lemma createProgram_runs :
  forall this n g,
    gl this = obj g ->
    let p := on_createProgram host n (obj g) in
    let linked := on_getProgramParameter host (4 + n) (obj g) p (LINK_STATUS host) in
    let link_info := on_getProgramInfoLog host (5 + n) (obj g) p in
    let link_report :=
      if linked then []
      else [ EGL (obj g) (GL.getProgramInfoLog p link_info);
             EConsoleError "Could not link program" link_info ] in
    let k := List.length link_report + (5 + n) in
    let valid := on_getProgramParameter host (1 + k) (obj g) p (VALIDATE_STATUS host) in
    let validate_info := on_getProgramInfoLog host (2 + k) (obj g) p in
    Common.createProgram host this n =
      ([ EGL (obj g) (GL.createProgram p);
         EGL (obj g) (GL.attachShader p (vertexShader this));
         EGL (obj g) (GL.attachShader p (fragmentShader this));
         EGL (obj g) (GL.linkProgram p);
         EGL (obj g) (GL.getProgramParameter p (LINK_STATUS host) linked) ]
         ++ link_report
         ++ [ EGL (obj g) (GL.validateProgram p);
              EGL (obj g) (GL.getProgramParameter p (VALIDATE_STATUS host) valid) ]
         ++ (if valid then []
             else [ EGL (obj g) (GL.getProgramInfoLog p validate_info);
                    EConsoleError "ERROR invalidating program" validate_info ]),
       set_program p this, Ok tt).
Proof.
  intros [c g' vs fs p w l r] n g H. simpl in H. subst g'.
  cbv zeta. autounfold with methods. cbn.
  destruct (on_getProgramParameter host (S (S (S (S n)))) (obj g)
              (on_createProgram host n (obj g)) (LINK_STATUS host)); cbn;
    match goal with
    | |- context [if negb ?b then _ else _] => destruct b
    end; reflexivity.
Qed.

End Failures.

Lemma constructor_survives_failures :
  forall host lib v n,
    let out := class_constructor (class_of host lib v) new_object n in
    truthy (gl (receiver out)) = true ->
    result out = Ok tt /\
    flat_map shader_created (events out) =
      [vertexShader (receiver out); fragmentShader (receiver out)] /\
    flat_map program_created (events out) = [program (receiver out)] /\
    List.length (flat_map status_read (events out)) = 4 /\
    List.length (filter is_consoleError (events out)) =
      List.length (filter negb (flat_map status_read (events out))) /\
    List.length (filter is_bufferData (events out)) = 1 /\
    List.length (filter is_drawArrays (events out)) = 1 /\
    requests (events out) = 1.
Proof.
  intros host lib [|] n; unfold_class.
  - exec_in (Triangle.constructor host new_object n);
      first [discriminate | intros _; repeat split; reflexivity].
  - exec_in (Rotating.constructor host lib new_object n);
      first [discriminate | intros _; repeat split; reflexivity].
Qed.

(** ** The clear colour *)

Lemma constructor_sets_colour :
  forall host lib v n,
    let out := class_constructor (class_of host lib v) new_object n in
    can_draw v (receiver out) = true ->
    In (EGL (gl (receiver out)) (GL.clearColor 0.75 0.85 0.8 1)) (events out).
Proof.
  intros host lib [|] n; unfold_class; unfold can_draw.
  - exec_in (Triangle.constructor host new_object n);
      first [discriminate | intros _; do 4 (try (left; reflexivity); right)].
  - exec_in (Rotating.constructor host lib new_object n);
      first [discriminate | intros _; do 4 (try (left; reflexivity); right)].
Qed.

Section Colour.

Variable host : Host.
Variable lib : GlMatrix.
Variable v : Variant.

Local Abbreviation C := (class_of host lib v).

Lemma colour_set_step :
  forall P a, colour_set v P -> colour_set v (step C P a).
Proof.
  intros P a HP j this Hj Hcan.
  assert (Hgrows : forall e, In e (log P) -> In e (log (step C P a))).
  { intros e He. destruct a as [|i|]; simpl.
    - apply in_or_app. now left.
    - destruct (nth_error (heap P) i); simpl; [apply in_or_app; now left|assumption].
    - destruct (callbacks P) as [|i rest]; [assumption|].
      destruct (nth_error (heap P) i); simpl; [apply in_or_app; now left|assumption]. }
  destruct (nth_error (heap P) j) as [old|] eqn:Hold.
  - (* an object that was there *)
    rewrite (step_object host lib v P a j old Hold) in Hj. injection Hj as Hthis.
    assert (Hgl : gl this = gl old /\ can_draw v old = true).
    { subst this. destruct a as [|i|].
      - auto.
      - destruct (Nat.eqb i j); [|auto]. destruct old; auto.
      - destruct (callbacks P) as [|i rest]; [auto|].
        destruct (Nat.eqb i j); [|auto].
        rewrite loop_keeps_can_draw in Hcan. split; [|assumption].
        destruct (loop_keeps_handles host lib v old (List.length (log P)))
          as [[_ [Hg _]] _]. symmetry. exact Hg. }
    destruct Hgl as [Hgl Hold_can]. rewrite Hgl.
    apply Hgrows. now apply (HP j old).
  - (* the object the action made *)
    apply nth_error_None in Hold.
    destruct a as [|i|].
    + simpl in Hj. rewrite nth_error_app2 in Hj by assumption.
      destruct (j - List.length (heap P)) as [|k]; simpl in Hj;
        [|destruct k; discriminate].
      injection Hj as Hthis. simpl. apply in_or_app. right. subst this.
      now apply (constructor_sets_colour host lib v (List.length (log P))).
    + assert (Hnone : nth_error (heap (step C P (AStop i))) j = None).
      { apply nth_error_None. simpl.
        destruct (nth_error (heap P) i); simpl; [rewrite length_update|]; assumption. }
      congruence.
    + assert (Hnone : nth_error (heap (step C P AFrame)) j = None).
      { apply nth_error_None. simpl.
        destruct (callbacks P) as [|i rest]; [assumption|].
        destruct (nth_error (heap P) i); simpl; [rewrite length_update|]; assumption. }
      congruence.
Qed.

Lemma colour_set_reachable :
  forall acts, colour_set v (run C acts start).
Proof.
  assert (H : forall acts P, colour_set v P -> colour_set v (run C acts P)).
  { induction acts as [|a acts IH]; intros P HP; simpl; auto using colour_set_step. }
  intros acts. apply H. intros i this Hi. destruct i; simpl in Hi; discriminate Hi.
Qed.

End Colour.

Lemma angle_at_turns :
  forall now, Rotating.angle_at now = (IZR now / 6000 * (2 * PI))%R.
Proof.
  intros now. unfold Rotating.angle_at, number. field.
Qed.

(** The frame the scheduler runs next, on a page after any history. *)
Lemma next_frame :
  forall host lib v acts i rest this,
    let C := class_of host lib v in
    let P := run C acts start in
    callbacks P = i :: rest ->
    nth_error (heap P) i = Some this ->
    can_draw v this = true /\
    step C P AFrame =
      {| heap := update i (receiver (class_loop C this (List.length (log P)))) (heap P);
         callbacks := rest ++ scheduled i (events (class_loop C this (List.length (log P))));
         log := log P ++ events (class_loop C this (List.length (log P))) |}.
Proof.
  intros host lib v acts i rest this. cbv zeta. intros Hc Hi. split.
  - destruct (well_queued_reachable host lib v acts) as [Hdraw _].
    destruct (Hdraw i) as [this' [Hi' Hcan]]; [rewrite Hc; now left|].
    congruence.
  - apply (step_frame host lib v _ i rest this Hc Hi).
Qed.

(** With the formulas of the library, the matrix is the rotation by the angle
    about the Y axis, column by column. *)
Lemma Reference_rotate_about_Y :
  forall out angle,
    Reference.rotate out (Reference.identity (Float32Array_new 16)) angle [0; 1; 0]%R =
      [ cos angle; 0; - sin angle; 0;
        0; 1; 0; 0;
        sin angle; 0; cos angle; 0;
        0; 0; 0; 1 ]%R.
Proof.
  intros out angle. unfold Reference.rotate, Reference.at_index, Reference.identity.
  simpl nth.
  replace (0 * 0 + 1 * 1 + 0 * 0)%R with 1%R by ring. rewrite sqrt_1.
  destruct (Rlt_dec 1 Reference.EPSILON) as [H|_].
  - unfold Reference.EPSILON in H. lra.
  - repeat match goal with |- (_ :: _) = (_ :: _) => f_equal end; field.
Qed.

(** ** What two objects share *)

Lemma constructor_canvas_and_context :
  forall host lib v n,
    let this := receiver (class_constructor (class_of host lib v) new_object n) in
    canvas this = on_getElementById host n "game-surface" /\
    gl this =
      match canvas this with
      | null => null
      | obj _ =>
          if truthy (on_getContext host (1 + n) (canvas this) "webgl")
          then on_getContext host (1 + n) (canvas this) "webgl"
          else on_getContext host (2 + n) (canvas this) "experimental-webgl"
      end.
Proof.
  intros host lib [|] n; unfold_class.
  - exec_in (Triangle.constructor host new_object n); vm_compute;
      use_answers; vm_compute; split; reflexivity.
  - exec_in (Rotating.constructor host lib new_object n); vm_compute;
      use_answers; vm_compute; split; reflexivity.
Qed.

Lemma constructor_made_by :
  forall host lib v n,
    let out := class_constructor (class_of host lib v) new_object n in
    made_by host n (List.length (events out) + n) (receiver out).
Proof.
  intros host lib [|] n; unfold_class; unfold made_by, shaders.
  - exec_in (Triangle.constructor host new_object n);
      (split;
       [ intros s [<-|[<-|[]]] Hs; first [now elim Hs |
           do 3 eexists; (split; [|first [reflexivity | symmetry; eassumption]]); lia]
       | intros Hp; first [now elim Hp |
           do 2 eexists; (split; [|first [reflexivity | symmetry; eassumption]]); lia] ]).
  - exec_in (Rotating.constructor host lib new_object n);
      (split;
       [ intros s [<-|[<-|[]]] Hs; first [now elim Hs |
           do 3 eexists; (split; [|first [reflexivity | symmetry; eassumption]]); lia]
       | intros Hp; first [now elim Hp |
           do 2 eexists; (split; [|first [reflexivity | symmetry; eassumption]]); lia] ]).
Qed.

Lemma made_by_more :
  forall host lo hi lo' hi' this,
    lo' <= lo -> hi <= hi' -> made_by host lo hi this -> made_by host lo' hi' this.
Proof.
  intros host lo hi lo' hi' this Hlo Hhi [Hs Hp]. split.
  - intros s Hin Hnull. destruct (Hs s Hin Hnull) as [m [g [t [Hm E]]]].
    exists m, g, t. split; [lia|exact E].
  - intros Hnull. destruct (Hp Hnull) as [m [g [Hm E]]].
    exists m, g. split; [lia|exact E].
Qed.

Lemma made_by_same_handles :
  forall host lo hi a b,
    same_handles a b -> made_by host lo hi a -> made_by host lo hi b.
Proof.
  intros host lo hi a b [_ [_ [Hv [Hf [Hp _]]]]] H.
  unfold made_by, shaders in *. now rewrite <- Hv, <- Hf, <- Hp.
Qed.

(** Objects made by calls at different times have no shader and no program in
    common, when the context makes a new object at every call. *)
Lemma made_by_apart :
  forall host lo hi lo' hi' a b,
    fresh_objects host ->
    made_by host lo hi a ->
    made_by host lo' hi' b ->
    hi <= lo' \/ hi' <= lo ->
    (forall s, In s (shaders a) -> s <> null -> ~ In s (shaders b)) /\
    (forall s, In s [program a] -> s <> null -> ~ In s [program b]).
Proof.
  intros host lo hi lo' hi' a b [Hshader Hprogram] [Has Hap] [Hbs Hbp] Hapart. split.
  - intros s Ha Hnull Hb.
    destruct (Has s Ha Hnull) as [m [g [t [Hm E]]]].
    destruct (Hbs s Hb Hnull) as [m' [g' [t' [Hm' E']]]].
    apply (Hshader m m' g g' t t'); [lia|congruence|congruence].
  - intros s [<-|[]] Hnull [E|[]].
    destruct (Hap Hnull) as [m [g [Hm Em]]].
    rewrite <- E in Hnull. destruct (Hbp Hnull) as [m' [g' [Hm' Em']]].
    apply (Hprogram m m' g g'); [lia|congruence|congruence].
Qed.

Section Sharing.

Variable host : Host.
Variable lib : GlMatrix.
Variable v : Variant.

Local Abbreviation C := (class_of host lib v).

(** An object of the page after an action was there before, with the handles
    it has now, or it is the object the action has constructed. *)
Lemma step_heap :
  forall P a j this',
    nth_error (heap (step C P a)) j = Some this' ->
    (exists this, nth_error (heap P) j = Some this /\ same_handles this this') \/
    (a = ANew /\ j = List.length (heap P) /\
     this' = receiver (class_constructor C new_object (List.length (log P)))).
Proof.
  intros P a j this' Hj.
  destruct (nth_error (heap P) j) as [old|] eqn:Hold.
  - left. exists old. split; [reflexivity|].
    destruct (step_keeps host lib v P a j old Hold) as [this'' [Hj' [Hsame _]]].
    rewrite Hj in Hj'. injection Hj' as <-. exact Hsame.
  - right. apply nth_error_None in Hold. destruct a as [|i|].
    + split; [reflexivity|]. simpl in Hj. rewrite nth_error_app2 in Hj by assumption.
      destruct (j - List.length (heap P)) as [|k] eqn:Hk; simpl in Hj;
        [|destruct k; discriminate].
      injection Hj as <-. split; [lia|reflexivity].
    + assert (Hnone : nth_error (heap (step C P (AStop i))) j = None).
      { apply nth_error_None. simpl.
        destruct (nth_error (heap P) i); simpl; [rewrite length_update|]; assumption. }
      congruence.
    + assert (Hnone : nth_error (heap (step C P AFrame)) j = None).
      { apply nth_error_None. simpl.
        destruct (callbacks P) as [|i rest]; [assumption|].
        destruct (nth_error (heap P) i); simpl; [rewrite length_update|]; assumption. }
      congruence.
Qed.

Lemma log_grows :
  forall P a, List.length (log P) <= List.length (log (step C P a)).
Proof.
  intros P [|i|]; simpl.
  - rewrite length_app. lia.
  - destruct (nth_error (heap P) i); simpl; [rewrite length_app|]; lia.
  - destruct (callbacks P) as [|i rest]; [lia|].
    destruct (nth_error (heap P) i); simpl; [rewrite length_app|]; lia.
Qed.

Lemma one_canvas_step :
  same_page_throughout host ->
  forall P a, one_canvas host P -> one_canvas host (step C P a).
Proof.
  intros [Helement Hcontext] P a HP i this' Hi.
  destruct (step_heap P a i this' Hi) as [[old [Hold Hsame]]|[_ [_ ->]]].
  - destruct Hsame as [Hc [Hg _]]. rewrite <- Hc, <- Hg. now apply (HP i).
  - destruct (constructor_canvas_and_context host lib v (List.length (log P)))
      as [Hc Hg].
    rewrite Hc in Hg. split.
    + rewrite Hc. apply Helement.
    + rewrite Hg. unfold context_of, canvas_of.
      rewrite (Helement (List.length (log P)) 0).
      destruct (on_getElementById host 0 "game-surface"); [reflexivity|].
      now rewrite (Hcontext (1 + List.length (log P)) 0),
                  (Hcontext (2 + List.length (log P)) 0).
Qed.

Lemma one_canvas_reachable :
  same_page_throughout host -> forall acts, one_canvas host (run C acts start).
Proof.
  intros Hsame acts.
  assert (H : forall acts P, one_canvas host P -> one_canvas host (run C acts P)).
  { clear acts. induction acts as [|a acts IH]; intros P HP; simpl; [assumption|].
    apply IH. now apply one_canvas_step. }
  apply H. intros i this Hi. destruct i; discriminate Hi.
Qed.

Lemma made_in_turn_step :
  forall P a, made_in_turn host P -> made_in_turn host (step C P a).
Proof.
  intros P a [Hall Hpairs].
  pose proof (log_grows P a) as Hlen.
  assert (Hnew : a = ANew ->
                 made_by host (List.length (log P)) (List.length (log (step C P a)))
                   (receiver (class_constructor C new_object (List.length (log P))))).
  { intros ->. simpl. rewrite length_app, Nat.add_comm.
    apply (constructor_made_by host lib v). }
  split.
  - intros i a' Hi.
    destruct (step_heap P a i a' Hi) as [[old [Hold Hsame]]|[Ha [_ ->]]].
    + apply (made_by_same_handles host _ _ old a' Hsame).
      apply (made_by_more host 0 (List.length (log P))); [lia|lia|now apply (Hall i)].
    + apply (made_by_more host (List.length (log P)) (List.length (log (step C P a))));
        [lia|lia|now apply Hnew].
  - intros i j a' b' Hij Hi Hj.
    destruct (step_heap P a i a' Hi) as [[oa [Hoa Hsa]]|[Ha [Hia ->]]];
      destruct (step_heap P a j b' Hj) as [[ob [Hob Hsb]]|[Hb [Hjb ->]]].
    + destruct (Hpairs i j oa ob Hij Hoa Hob) as [k [Hka Hkb]]. exists k. split.
      * now apply (made_by_same_handles host _ _ oa a').
      * apply (made_by_same_handles host _ _ ob b' Hsb).
        pose proof (proj1 Hkb) as _.
        assert (Hk : k <= k) by lia.
        apply (made_by_more host k (List.length (log P))); [lia|lia|exact Hkb].
    + exists (List.length (log P)). split.
      * apply (made_by_same_handles host _ _ oa a' Hsa). now apply (Hall i).
      * now apply Hnew.
    + assert (Hlt : j < List.length (heap P))
        by (apply nth_error_Some; congruence).
      lia.
    + lia.
Qed.

Lemma made_in_turn_reachable :
  forall acts, made_in_turn host (run C acts start).
Proof.
  intros acts.
  assert (H : forall acts P, made_in_turn host P -> made_in_turn host (run C acts P)).
  { clear acts. induction acts as [|a acts IH]; intros P HP; simpl; [assumption|].
    apply IH. now apply made_in_turn_step. }
  apply H. split.
  - intros i a Hi. destruct i; discriminate Hi.
  - intros i j a b _ Hi. destruct i; discriminate Hi.
Qed.

Lemma apart_reachable :
  fresh_objects host ->
  forall acts i j a b,
    i <> j ->
    nth_error (heap (run C acts start)) i = Some a ->
    nth_error (heap (run C acts start)) j = Some b ->
    (forall s, In s (shaders a) -> s <> null -> ~ In s (shaders b)) /\
    (forall s, In s [program a] -> s <> null -> ~ In s [program b]).
Proof.
  intros Hfresh acts i j a b Hij Hi Hj.
  destruct (made_in_turn_reachable acts) as [_ Hpairs].
  destruct (Nat.lt_total i j) as [Hlt|[Heq|Hgt]]; [|contradiction|].
  - destruct (Hpairs i j a b Hlt Hi Hj) as [k [Ha Hb]].
    apply (made_by_apart host 0 k k _ a b Hfresh Ha Hb). now left.
  - destruct (Hpairs j i b a Hgt Hj Hi) as [k [Hb Ha]].
    apply (made_by_apart host k _ 0 k a b Hfresh Ha Hb). now right.
Qed.

End Sharing.


Lemma of_nat_apart :
  forall a b, obj (Pos.of_nat (S a)) = obj (Pos.of_nat (S b)) -> a = b.
Proof.
  intros a b H. injection H as H.
  change (Pos.of_nat (S a) = Pos.of_nat (S b)) in H.
  apply Nat2Pos.inj in H; [now injection H|discriminate|discriminate].
Qed.

Lemma browser_is_one_page : same_page_throughout browser.
Proof. split; intros; reflexivity. Qed.

Lemma browser_makes_fresh_objects : fresh_objects browser.
Proof.
  split.
  - intros n m g g' t t' Hnm _ E. apply Hnm.
    apply (of_nat_apart (99 + n) (99 + m)) in E.
    apply Nat.add_cancel_l in E. exact E.
  - intros n m g g' Hnm _ E. apply Hnm.
    apply (of_nat_apart (99 + n) (99 + m)) in E.
    apply Nat.add_cancel_l in E. exact E.
Qed.

(** * The claims *)

(** C1.  In [part_001], whatever the browser and the library: the frame the
    constructor runs leaves in the world matrix the result of [mat4.rotate]
    on the identity matrix, about the axis (0, 1, 0), by the angle
    (ms / 6000) * 2 pi, where ms is what [Date.now()] returned in that frame
    (or the constructor threw before it read the time); and on a page, after
    any history, the frame the scheduler runs next does the same with the time
    it reads, and uploads the matrix it has computed. *)
Theorem world_matrix_is_rotation_about_Y :
  forall host lib,
    let C := class_of host lib Spinning in
    let identity := mat4_identity lib (Float32Array_new 16) in
    let rotation (out : Float32Array) (ms : Z) :=
      mat4_rotate lib out identity (IZR ms / 6000 * (2 * PI))%R [0; 1; 0]%R in
    (forall n,
       let out := Rotating.constructor host lib new_object n in
       match flat_map time_read (events out) with
       | [] => result out = Throw TypeError
       | [ms] =>
           result out = Ok tt /\
           worldMatrix (receiver out) = Some (rotation identity ms)
       | _ => False
       end) /\
    (forall acts i rest this,
       let P := run C acts start in
       callbacks P = i :: rest ->
       nth_error (heap P) i = Some this ->
       exists w,
         worldMatrix this = Some w /\
         let ms := on_Date_now host (List.length (log P)) in
         nth_error (heap (step C P AFrame)) i =
           Some (set_worldMatrix (Some (rotation w ms)) this) /\
         flat_map time_read (log (step C P AFrame)) =
           flat_map time_read (log P) ++ [ms] /\
         In (EGL (gl this)
               (GL.uniformMatrix4fv (worldAttributeLocation this) false (rotation w ms)))
            (log (step C P AFrame))).
Proof.
  intros host lib. cbv zeta. split.
  - intros n. pose proof (constructor_first_frame host lib n) as H. cbv zeta in H.
    destruct (flat_map time_read (events (Rotating.constructor host lib new_object n)))
      as [|ms [|ms' l]]; [exact H| |exact H].
    rewrite angle_at_turns in H. exact H.
  - intros acts i rest this Hc Hi.
    destruct (next_frame host lib Spinning acts i rest this Hc Hi) as [Hcan Hstep].
    unfold can_draw in Hcan. destruct (gl this) as [|g] eqn:Hg; [discriminate|].
    destruct (worldMatrix this) as [w|] eqn:Hw; [|discriminate].
    exists w. split; [reflexivity|].
    rewrite Hstep. unfold class_of, Rotating_class, class_loop.
    rewrite (Rotating_loop_runs host lib this _ g w Hg Hw).
    unfold events, receiver. simpl fst. simpl snd. simpl heap. simpl log.
    rewrite <- angle_at_turns. split; [|split].
    + eapply nth_error_update_same. eassumption.
    + rewrite flat_map_app. f_equal. simpl. now destruct (running this).
    + apply in_or_app. right. right. left. reflexivity.
Qed.

(** The second frame of a page of [part_001] in the browser of the examples. *)
Lemma world_matrix_is_rotation_about_Y_witness :
  let C := class_of browser gl_matrix Spinning in
  let P := run C [ANew] start in
  exists this w,
    nth_error (heap P) 0 = Some this /\
    worldMatrix this = Some w /\
    nth_error (heap (step C P AFrame)) 0 =
      Some (set_worldMatrix
              (Some (mat4_rotate gl_matrix w
                       (mat4_identity gl_matrix (Float32Array_new 16))
                       (IZR (on_Date_now browser (List.length (log P))) / 6000 * (2 * PI))%R
                       [0; 1; 0]%R))
              this).
Proof.
  cbv zeta.
  assert (E : option_map (fun _ => tt)
                (nth_error (heap (run (class_of browser gl_matrix Spinning) [ANew] start)) 0)
              = Some tt) by (lazy; reflexivity).
  apply option_map_some in E. destruct E as [this [Hthis _]].
  destruct (proj2 (world_matrix_is_rotation_about_Y browser gl_matrix)
              [ANew] 0 [] this) as [w [Hw [Hm _]]];
    [lazy; reflexivity|exact Hthis|].
  exists this, w. auto.
Defined.

(** C2.  A page of either drawing class, after any history: [stop] of an
    object that exists puts its flag down; from then on, whatever the page
    does, at most one more frame of that object runs; and a frame of an
    object draws the same calls whatever its flag, the flag deciding only
    whether the next frame is requested once the draw is issued. *)
Theorem stop_lets_one_more_frame_at_most :
  forall host lib v before after i,
    let C := class_of host lib v in
    let P := run C before start in
    i < List.length (heap P) ->
    let Q := step C P (AStop i) in
    (exists this, nth_error (heap Q) i = Some this /\ running this = false) /\
    frames_run C i after Q <= 1 /\
    (forall acts j rest this,
       let R := run C acts start in
       callbacks R = j :: rest ->
       nth_error (heap R) j = Some this ->
       exists drawn,
         requests drawn = 0 /\
         (forall b,
            events (class_loop C (set_running b this) (List.length (log R))) =
              drawn ++ [EGL (gl this) (GL.drawArrays (TRIANGLES host) 0 3)]
                    ++ (if b then [ERequestAnimationFrame] else [])) /\
         log (step C R AFrame) =
           log R ++ drawn ++ [EGL (gl this) (GL.drawArrays (TRIANGLES host) 0 3)]
                 ++ (if running this then [ERequestAnimationFrame] else []) /\
         callbacks (step C R AFrame) = rest ++ (if running this then [j] else [])).
Proof.
  intros host lib v before after i. cbv zeta.
  set (P := run (class_of host lib v) before start). intros Hi.
  destruct (nth_error (heap P) i) as [this|] eqn:Hthis;
    [|apply nth_error_None in Hthis; lia].
  assert (HQ : nth_error (heap (step (class_of host lib v) P (AStop i))) i =
               Some (set_running false this)).
  { erewrite step_object by eassumption. now rewrite Nat.eqb_refl. }
  split; [|split].
  - eexists. split; [exact HQ|reflexivity].
  - transitivity (pending i (step (class_of host lib v) P (AStop i))).
    + eapply stopped_frames_bound; [exact HQ|reflexivity].
    + apply (well_queued_step host lib v P (AStop i)
               (well_queued_reachable host lib v before)).
  - intros acts j rest that.
    set (R := run (class_of host lib v) acts start). intros Hc Hj.
    destruct (well_queued_reachable host lib v acts) as [Hdraw _].
    destruct (Hdraw j) as [that' [Hj' Hcan]]; [fold R; rewrite Hc; now left|].
    fold R in Hj'. rewrite Hj in Hj'. inversion Hj'. subst that'.
    destruct (frame_shape host lib v that (List.length (log R)) Hcan)
      as [drawn [Hreq Hshape]].
    exists drawn. split; [assumption|]. split; [assumption|].
    pose proof (Hshape (running that)) as Hnow.
    rewrite set_running_same in Hnow.
    rewrite (step_frame host lib v R j rest that Hc Hj). simpl.
    rewrite Hnow. split; [reflexivity|].
    f_equal. unfold scheduled. unfold requests in Hreq.
    apply length_zero_iff_nil in Hreq.
    rewrite !filter_app, Hreq. simpl. now destruct (running that).
Qed.

(** One frame is queued when [stop] is called; it runs, later callbacks do
    nothing. *)
Lemma stop_lets_one_more_frame_at_most_witness :
  frames_run (class_of browser gl_matrix Spinning) 0 [AFrame; AFrame; AFrame]
    (step (class_of browser gl_matrix Spinning)
       (run (class_of browser gl_matrix Spinning) [ANew; AFrame] start)
       (AStop 0)) <= 1.
Proof.
  apply (stop_lets_one_more_frame_at_most browser gl_matrix Spinning
           [ANew; AFrame] [AFrame; AFrame; AFrame] 0).
  lazy. lia.
Defined.

Example one_frame_after_stop :
  frames_run (class_of browser gl_matrix Spinning) 0 [AFrame; AFrame; AFrame]
    (step (class_of browser gl_matrix Spinning)
       (run (class_of browser gl_matrix Spinning) [ANew; AFrame] start)
       (AStop 0)) = 1.
Proof. lazy. reflexivity. Qed.

Example no_frame_after_stop_and_frame :
  frames_run (class_of browser gl_matrix Flat) 0 [AFrame; AFrame]
    (run (class_of browser gl_matrix Flat) [ANew; AStop 0; AFrame] start) = 0.
Proof. lazy. reflexivity. Qed.


(** The first object of a page of [cube.ts], three frames on: one upload, four
    draws. *)
Example one_upload_many_draws :
  let P := run (class_of browser gl_matrix Flat) [ANew; AFrame; AFrame; AFrame] start in
  List.length (filter is_bufferData (log P)) = 1 /\
  List.length (filter is_drawArrays (log P)) = 4.
Proof. lazy. split; reflexivity. Qed.

(** C4.  Whatever the browser answers and whatever the source: [addShader]
    asks for the compile status after compiling and, if it is false, fetches
    the log and writes it to the console; it returns the shader either way.
    [createProgram] does the same for the link status and for the validation
    status, and stores the program either way.  Neither throws.  A
    constructor that has got a context ends normally whatever the four
    statuses are: it keeps the two shaders and the program it has created,
    has written one message per false status, has uploaded the vertices, has
    drawn its first frame and has requested the next. *)
Theorem shader_failures_are_logged_and_ignored :
  forall host lib,
    (forall source type this n g,
       gl this = obj g ->
       let shader := on_createShader host n (obj g) type in
       let compiled :=
         on_getShaderParameter host (3 + n) (obj g) shader (COMPILE_STATUS host) in
       let info := on_getShaderInfoLog host (4 + n) (obj g) shader in
       Common.addShader host source type this n =
         ([ EGL (obj g) (GL.createShader type shader);
            EGL (obj g) (GL.shaderSource shader source);
            EGL (obj g) (GL.compileShader shader);
            EGL (obj g) (GL.getShaderParameter shader (COMPILE_STATUS host) compiled) ]
            ++ (if compiled then []
                else [ EGL (obj g) (GL.getShaderInfoLog shader info);
                       EConsoleError "Error compiling shader " info ]),
          this, Ok shader)) /\
    (forall this n g,
       gl this = obj g ->
       let p := on_createProgram host n (obj g) in
       let linked := on_getProgramParameter host (4 + n) (obj g) p (LINK_STATUS host) in
       let link_info := on_getProgramInfoLog host (5 + n) (obj g) p in
       let link_report :=
         if linked then []
         else [ EGL (obj g) (GL.getProgramInfoLog p link_info);
                EConsoleError "Could not link program" link_info ] in
       let k := List.length link_report + (5 + n) in
       let valid := on_getProgramParameter host (1 + k) (obj g) p (VALIDATE_STATUS host) in
       let validate_info := on_getProgramInfoLog host (2 + k) (obj g) p in
       Common.createProgram host this n =
         ([ EGL (obj g) (GL.createProgram p);
            EGL (obj g) (GL.attachShader p (vertexShader this));
            EGL (obj g) (GL.attachShader p (fragmentShader this));
            EGL (obj g) (GL.linkProgram p);
            EGL (obj g) (GL.getProgramParameter p (LINK_STATUS host) linked) ]
            ++ link_report
            ++ [ EGL (obj g) (GL.validateProgram p);
                 EGL (obj g) (GL.getProgramParameter p (VALIDATE_STATUS host) valid) ]
            ++ (if valid then []
                else [ EGL (obj g) (GL.getProgramInfoLog p validate_info);
                       EConsoleError "ERROR invalidating program" validate_info ]),
          set_program p this, Ok tt)) /\
    (forall v n,
       let out := class_constructor (class_of host lib v) new_object n in
       truthy (gl (receiver out)) = true ->
       result out = Ok tt /\
       flat_map shader_created (events out) =
         [vertexShader (receiver out); fragmentShader (receiver out)] /\
       flat_map program_created (events out) = [program (receiver out)] /\
       List.length (flat_map status_read (events out)) = 4 /\
       List.length (filter is_consoleError (events out)) =
         List.length (filter negb (flat_map status_read (events out))) /\
       List.length (filter is_bufferData (events out)) = 1 /\
       List.length (filter is_drawArrays (events out)) = 1 /\
       requests (events out) = 1).
Proof.
  intros host lib. split; [|split].
  - apply addShader_runs.
  - apply createProgram_runs.
  - apply constructor_survives_failures.
Qed.

(** In a browser that rejects both shaders, the constructor of [part_001]
    writes four messages and goes on to draw. *)
Lemma shader_failures_are_logged_and_ignored_witness :
  let out := class_constructor (class_of browser_rejecting_shaders gl_matrix Spinning)
               new_object 0 in
  result out = Ok tt /\
  flat_map shader_created (events out) =
    [vertexShader (receiver out); fragmentShader (receiver out)] /\
  flat_map program_created (events out) = [program (receiver out)] /\
  List.length (flat_map status_read (events out)) = 4 /\
  List.length (filter is_consoleError (events out)) =
    List.length (filter negb (flat_map status_read (events out))) /\
  List.length (filter is_bufferData (events out)) = 1 /\
  List.length (filter is_drawArrays (events out)) = 1 /\
  requests (events out) = 1.
Proof.
  apply (proj2 (proj2 (shader_failures_are_logged_and_ignored
                         browser_rejecting_shaders gl_matrix)) Spinning 0).
  lazy. reflexivity.
Defined.

Example four_messages :
  map (fun e => match e with EConsoleError message _ => message | _ => ""%string end)
    (filter is_consoleError
       (events (Rotating.constructor browser_rejecting_shaders gl_matrix new_object 0))) =
    [ "Error compiling shader "; "Error compiling shader ";
      "Could not link program"; "ERROR invalidating program" ]%string.
Proof. lazy. reflexivity. Qed.

(** C5, as stated, fails for the canvas and for the context: on a page of
    [cube.ts] in a browser with WebGL, two objects hold the same canvas and
    the same context. *)
Lemma two_instances_hold_one_canvas_and_one_context :
  ~ each_owns (fun this => [canvas this]) (class_of browser gl_matrix Flat) /\
  ~ each_owns (fun this => [gl this]) (class_of browser gl_matrix Flat).
Proof.
  assert (E0 : option_map (fun this => (canvas this, gl this))
                 (nth_error (heap (run (class_of browser gl_matrix Flat)
                                      [ANew; ANew] start)) 0)
               = Some (obj 1, obj 2)) by (lazy; reflexivity).
  assert (E1 : option_map (fun this => (canvas this, gl this))
                 (nth_error (heap (run (class_of browser gl_matrix Flat)
                                      [ANew; ANew] start)) 1)
               = Some (obj 1, obj 2)) by (lazy; reflexivity).
  apply option_map_some in E0. apply option_map_some in E1.
  destruct E0 as [a [Ha Ea]], E1 as [b [Hb Eb]].
  injection Ea as Ca Ga. injection Eb as Cb Gb.
  split; intros H.
  - apply (H [ANew; ANew] 0 1 a b (Nat.neq_0_succ 0) Ha Hb (canvas a)).
    + now left.
    + rewrite Ca. discriminate.
    + left. congruence.
  - apply (H [ANew; ANew] 0 1 a b (Nat.neq_0_succ 0) Ha Hb (gl a)).
    + now left.
    + rewrite Ga. discriminate.
    + left. congruence.
Qed.

(** C5, amended.  On a page in any state: [new App()] once more leaves every
    object that exists as it is; the object it adds is what the constructor
    makes of a fresh object, and each handle that object holds was returned
    to a call of that very constructor run (or is unset); [stop] of one
    object puts the flag of that object down and leaves every other object as
    it is.  The shaders and the program are an object's own: where the
    context makes a new object at every [createShader] and [createProgram],
    no two objects of a page hold the same shader or the same program.  The
    canvas and the context are not: where the document and the canvas answer
    the same way every time, all objects of a page hold the same canvas and
    the same context. *)
Theorem instances_share_canvas_and_context_only :
  forall host lib v P,
    let C := class_of host lib v in
    let made := class_constructor C new_object (List.length (log P)) in
    (forall j this,
       nth_error (heap P) j = Some this ->
       nth_error (heap (step C P ANew)) j = Some this) /\
    nth_error (heap (step C P ANew)) (List.length (heap P)) = Some (receiver made) /\
    own_handles (events made) (receiver made) /\
    (forall i this,
       nth_error (heap P) i = Some this ->
       nth_error (heap (step C P (AStop i))) i = Some (set_running false this)) /\
    (forall i j this,
       i <> j ->
       nth_error (heap P) j = Some this ->
       nth_error (heap (step C P (AStop i))) j = Some this) /\
    (fresh_objects host ->
     each_owns shaders C /\ each_owns (fun this => [program this]) C) /\
    (same_page_throughout host ->
     forall acts i j a b,
       nth_error (heap (run C acts start)) i = Some a ->
       nth_error (heap (run C acts start)) j = Some b ->
       canvas a = canvas b /\ gl a = gl b).
Proof.
  intros host lib v P. cbv zeta. split; [|split; [|split; [|split; [|split; [|split]]]]].
  - intros j this Hj. now rewrite (step_object host lib v P ANew j this Hj).
  - apply nth_error_snoc_new.
  - apply constructor_own_handles.
  - intros i this Hi. rewrite (step_object host lib v P (AStop i) i this Hi).
    now rewrite Nat.eqb_refl.
  - intros i j this Hne Hj. rewrite (step_object host lib v P (AStop i) j this Hj).
    destruct (Nat.eqb_spec i j); [contradiction|reflexivity].
  - intros Hfresh. split; intros acts i j a b Hij Hi Hj;
      now apply (apart_reachable host lib v Hfresh acts i j a b Hij Hi Hj).
  - intros Hsame acts i j a b Hi Hj.
    destruct (one_canvas_reachable host lib v Hsame acts i a Hi) as [Hca Hga].
    destruct (one_canvas_reachable host lib v Hsame acts j b Hj) as [Hcb Hgb].
    split; congruence.
Qed.

(** Two objects of a page of [cube.ts] in a browser with WebGL: the first
    stays as it is when a third is made and when the second is stopped; the
    two hold one canvas and one context, and a vertex shader and a program
    each of its own. *)
Lemma instances_share_canvas_and_context_only_witness :
  let C := class_of browser gl_matrix Flat in
  let P := run C [ANew; ANew] start in
  exists first second,
    nth_error (heap P) 0 = Some first /\
    nth_error (heap P) 1 = Some second /\
    nth_error (heap (step C P ANew)) 0 = Some first /\
    nth_error (heap (step C P (AStop 1))) 0 = Some first /\
    canvas first = canvas second /\
    gl first = gl second /\
    ~ In (vertexShader first) (shaders second) /\
    ~ In (program first) [program second].
Proof.
  cbv zeta.
  assert (E0 : option_map (fun this => (vertexShader this, program this))
                 (nth_error (heap (run (class_of browser gl_matrix Flat)
                                      [ANew; ANew] start)) 0)
               = Some (obj 104, obj 112)) by (lazy; reflexivity).
  assert (E1 : option_map (fun _ => tt)
                 (nth_error (heap (run (class_of browser gl_matrix Flat)
                                      [ANew; ANew] start)) 1)
               = Some tt) by (lazy; reflexivity).
  apply option_map_some in E0. destruct E0 as [first [Hfirst Efirst]].
  apply option_map_some in E1. destruct E1 as [second [Hsecond _]].
  injection Efirst as Evs Ep.
  exists first, second. split; [exact Hfirst|]. split; [exact Hsecond|].
  destruct (instances_share_canvas_and_context_only browser gl_matrix Flat
              (run (class_of browser gl_matrix Flat) [ANew; ANew] start))
    as [Hnew [_ [_ [_ [Hstop [Hown Hshare]]]]]].
  destruct (Hown browser_makes_fresh_objects) as [Hshaders Hprogram].
  destruct (Hshare browser_is_one_page [ANew; ANew] 0 1 first second Hfirst Hsecond)
    as [Hcanvas Hgl].
  split; [apply Hnew; exact Hfirst|].
  split; [apply Hstop; [discriminate|exact Hfirst]|].
  split; [exact Hcanvas|]. split; [exact Hgl|]. split.
  - apply (Hshaders [ANew; ANew] 0 1 first second (Nat.neq_0_succ 0) Hfirst Hsecond).
    + now left.
    + rewrite Evs. discriminate.
  - apply (Hprogram [ANew; ANew] 0 1 first second (Nat.neq_0_succ 0) Hfirst Hsecond).
    + now left.
    + rewrite Ep. discriminate.
Defined.

(** Two objects on one page, the first stopped: the canvas and the context
    are the ones the browser has for the page, the shaders differ, and only
    the first flag is down. *)
Example two_instances :
  let P := run (class_of browser gl_matrix Flat) [ANew; ANew; AStop 0] start in
  map (fun a => (canvas a, gl a, vertexShader a, running a)) (heap P) =
    [ (obj 1, obj 2, obj 104, false); (obj 1, obj 2, obj 136, true) ]%positive.
Proof. lazy. reflexivity. Qed.

(** C6, as stated, fails: with two objects on a page of [part_001] and [stop]
    called on the first, the flags differ. *)
Lemma running_is_not_process_wide :
  ~ process_wide_running (class_of browser gl_matrix Spinning).
Proof.
  intros H.
  specialize (H [ANew; ANew; AStop 0] 0 1).
  assert (E0 : option_map running
                 (nth_error (heap (run (class_of browser gl_matrix Spinning)
                                      [ANew; ANew; AStop 0] start)) 0) = Some false)
    by (lazy; reflexivity).
  assert (E1 : option_map running
                 (nth_error (heap (run (class_of browser gl_matrix Spinning)
                                      [ANew; ANew; AStop 0] start)) 1) = Some true)
    by (lazy; reflexivity).
  apply option_map_some in E0. apply option_map_some in E1.
  destruct E0 as [a [Ha Ra]], E1 as [b [Hb Rb]].
  specialize (H a b Ha Hb). congruence.
Qed.

(** C6, amended.  The flag is a field of each object: it is set when the
    constructor has run; [stop] of an object puts the flag of that object
    down and leaves the other objects as they are; a frame of an object whose
    flag is down requests no further frame; and whatever the page does, an
    object keeps its handles, so the flag and the world matrix are all that
    changes once the constructor has run. *)
Theorem running_is_per_object :
  forall host lib v P,
    let C := class_of host lib v in
    (forall n, running (receiver (class_constructor C new_object n)) = true) /\
    (forall i this,
       nth_error (heap P) i = Some this ->
       nth_error (heap (step C P (AStop i))) i = Some (set_running false this)) /\
    (forall i j that,
       i <> j ->
       nth_error (heap P) j = Some that ->
       nth_error (heap (step C P (AStop i))) j = Some that) /\
    (forall this n,
       running this = false -> requests (events (class_loop C this n)) = 0) /\
    (forall a j this,
       nth_error (heap P) j = Some this ->
       exists this',
         nth_error (heap (step C P a)) j = Some this' /\ same_handles this this').
Proof.
  intros host lib v P. cbv zeta. split; [|split; [|split; [|split]]].
  - intros n. apply (constructor_requests host lib v n).
  - intros i this Hi. rewrite (step_object host lib v P (AStop i) i this Hi).
    now rewrite Nat.eqb_refl.
  - intros i j this Hne Hj. rewrite (step_object host lib v P (AStop i) j this Hj).
    destruct (Nat.eqb_spec i j); [contradiction|reflexivity].
  - intros this n Hr. now rewrite loop_requests, Hr, andb_false_r.
  - intros a j this Hj.
    destruct (step_keeps host lib v P a j this Hj) as [this' [Hj' [Hh _]]].
    exists this'. auto.
Qed.

(** Of two objects of a page of [part_001], [stop] of the second puts the
    flag of the second down and leaves the first as it is. *)
Lemma running_is_per_object_witness :
  let C := class_of browser gl_matrix Spinning in
  let P := run C [ANew; ANew] start in
  exists first second,
    nth_error (heap P) 0 = Some first /\
    nth_error (heap P) 1 = Some second /\
    nth_error (heap (step C P (AStop 1))) 0 = Some first /\
    nth_error (heap (step C P (AStop 1))) 1 = Some (set_running false second).
Proof.
  cbv zeta.
  assert (E0 : option_map (fun _ => tt)
                 (nth_error (heap (run (class_of browser gl_matrix Spinning)
                                      [ANew; ANew] start)) 0) = Some tt)
    by (lazy; reflexivity).
  assert (E1 : option_map (fun _ => tt)
                 (nth_error (heap (run (class_of browser gl_matrix Spinning)
                                      [ANew; ANew] start)) 1) = Some tt)
    by (lazy; reflexivity).
  apply option_map_some in E0. destruct E0 as [first [Hfirst _]].
  apply option_map_some in E1. destruct E1 as [second [Hsecond _]].
  exists first, second. split; [exact Hfirst|]. split; [exact Hsecond|].
  destruct (running_is_per_object browser gl_matrix Spinning
              (run (class_of browser gl_matrix Spinning) [ANew; ANew] start))
    as [_ [Hown [Hother _]]].
  split; [apply Hother; [discriminate|exact Hfirst]|apply Hown; exact Hsecond].
Defined.

(** C7.  In each of the three programs, when the page has the canvas: the
    constructor first looks the canvas up and asks it for "webgl"; it asks
    for "experimental-webgl" next exactly when the first answer was no
    context; it never asks for a context again; [this.gl] is the first answer
    if that is a context and the second otherwise; and when neither is, the
    constructor makes no further call and ends in a [TypeError]. *)
Theorem context_is_asked_for_by_two_names_at_most :
  forall host lib n c construct,
    In construct [ Surface.constructor host; Triangle.constructor host;
                   Rotating.constructor host lib ] ->
    on_getElementById host n "game-surface" = obj c ->
    let primary := on_getContext host (1 + n) (obj c) "webgl" in
    let secondary := on_getContext host (2 + n) (obj c) "experimental-webgl" in
    let acquisition :=
      [ EGetElementById "game-surface" (obj c); EGetContext (obj c) "webgl" primary ]
      ++ (if truthy primary then []
          else [ EGetContext (obj c) "experimental-webgl" secondary ]) in
    let out := construct new_object n in
    firstn (List.length acquisition) (events out) = acquisition /\
    filter is_getContext (skipn (List.length acquisition) (events out)) = [] /\
    gl (receiver out) = (if truthy primary then primary else secondary) /\
    (truthy (gl (receiver out)) = false ->
     events out = acquisition /\ result out = Throw TypeError).
Proof.
  intros host lib n c construct Hin Hc. cbv zeta.
  destruct Hin as [<-|[<-|[<-|[]]]].
  - exec_in (Surface.constructor host new_object n); vm_compute in Hc; vm_compute;
      use_answers; vm_compute; repeat split; first [reflexivity | discriminate].
  - exec_in (Triangle.constructor host new_object n); vm_compute in Hc; vm_compute;
      use_answers; vm_compute; repeat split; first [reflexivity | discriminate].
  - exec_in (Rotating.constructor host lib new_object n); vm_compute in Hc; vm_compute;
      use_answers; vm_compute; repeat split; first [reflexivity | discriminate].
Qed.

(** A browser that knows the context only by its older name is asked twice. *)
Lemma context_is_asked_for_by_two_names_at_most_witness :
  let out := Triangle.constructor old_browser new_object 0 in
  firstn 3 (events out) =
    [ EGetElementById "game-surface" (obj 1);
      EGetContext (obj 1) "webgl" null;
      EGetContext (obj 1) "experimental-webgl" (obj 2) ] /\
  filter is_getContext (skipn 3 (events out)) = [] /\
  gl (receiver out) = obj 2 /\
  (truthy (gl (receiver out)) = false ->
   events out =
     [ EGetElementById "game-surface" (obj 1);
       EGetContext (obj 1) "webgl" null;
       EGetContext (obj 1) "experimental-webgl" (obj 2) ] /\
   result out = Throw TypeError).
Proof.
  exact (context_is_asked_for_by_two_names_at_most old_browser gl_matrix 0 1
           (Triangle.constructor old_browser) (or_intror (or_introl eq_refl)) eq_refl).
Defined.

(** Without WebGL the constructor of [part_000] stops after the second
    request. *)
Example without_webgl :
  Surface.constructor browser_without_webgl new_object 0 =
    ([ EGetElementById "game-surface" (obj 1);
       EGetContext (obj 1) "webgl" null;
       EGetContext (obj 1) "experimental-webgl" null ],
     set_canvas (obj 1) new_object, Throw TypeError).
Proof. lazy. reflexivity. Qed.

(** The first callback frame of a page of [part_001]: the time is read, the
    world matrix is uploaded, and only then the screen is cleared. *)
Example frame_of_part_001 :
  let C := class_of browser gl_matrix Spinning in
  let P := run C [ANew] start in
  let frame := skipn (List.length (log P)) (log (step C P AFrame)) in
  position is_uniformMatrix4fv frame = Some 1 /\
  position is_clear frame = Some 2 /\
  position is_drawArrays frame = Some 3 /\
  List.length frame = 5.
Proof. lazy. repeat split; reflexivity. Qed.

(** C8, as stated, fails: in that frame the clear does not come before the
    upload of the world matrix. *)
Lemma part_001_uploads_before_it_clears :
  let C := class_of browser gl_matrix Spinning in
  let P := run C [ANew] start in
  ~ clear_upload_draw (skipn (List.length (log P)) (log (step C P AFrame))).
Proof.
  lazy. intros [H _]. inversion H as [|m H']. inversion H'.
Qed.

(** C8, amended.  On a page of either class, after any history, the frame the
    scheduler runs next makes these calls, in this order: in [part_001], it
    reads the time and uploads the world matrix rotated to that time; it
    clears the colour and the depth buffer; in [cube.ts], it selects the
    program; it draws 3 vertices from vertex 0 on as triangles, not indexed;
    and if the flag of the object is set it requests the next frame.  The
    clear colour of the context is the pastel one: the constructor has set
    it, and no call of the page has ever set another. *)
Theorem frame_calls_in_order :
  forall host lib v acts i rest this,
    let C := class_of host lib v in
    let P := run C acts start in
    callbacks P = i :: rest ->
    nth_error (heap P) i = Some this ->
    exists g w,
      gl this = obj g /\
      (v = Spinning -> worldMatrix this = Some w) /\
      log (step C P AFrame) =
        log P
        ++ match v with
           | Flat =>
               [ EGL (obj g) (GL.clear (color_and_depth host));
                 EGL (obj g) (GL.useProgram (program this));
                 EGL (obj g) (GL.drawArrays (TRIANGLES host) 0 3) ]
           | Spinning =>
               let now := on_Date_now host (List.length (log P)) in
               [ EDateNow now;
                 EGL (obj g)
                   (GL.uniformMatrix4fv (worldAttributeLocation this) false
                      (mat4_rotate lib w (Rotating.identityMatrix lib)
                         (Rotating.angle_at now) [0; 1; 0]%R));
                 EGL (obj g) (GL.clear (color_and_depth host));
                 EGL (obj g) (GL.drawArrays (TRIANGLES host) 0 3) ]
           end
        ++ (if running this then [ERequestAnimationFrame] else []) /\
      In (EGL (obj g) (GL.clearColor 0.75 0.85 0.8 1)) (log P) /\
      Forall pastel_call (log (step C P AFrame)).
Proof.
  intros host lib v acts i rest this. cbv zeta. intros Hc Hi.
  destruct (next_frame host lib v acts i rest this Hc Hi) as [Hcan Hstep].
  pose proof (colour_set_reachable host lib v acts i this Hi Hcan) as Hcolour.
  assert (Hpastel : Forall pastel_call
                      (log (run (class_of host lib v) (acts ++ [AFrame]) start))).
  { apply log_emits;
      [apply constructor_pastel_calls|apply loop_pastel_calls|constructor]. }
  assert (Hrun : forall acts' P,
             run (class_of host lib v) (acts' ++ [AFrame]) P =
             step (class_of host lib v) (run (class_of host lib v) acts' P) AFrame).
  { induction acts' as [|a acts' IH]; intros P; simpl; auto. }
  rewrite Hrun in Hpastel.
  unfold can_draw in Hcan. destruct (gl this) as [|g] eqn:Hg; [discriminate|].
  simpl in Hcan. rewrite Hstep. simpl log. destruct v.
  - exists g, []. split; [reflexivity|]. split; [discriminate|].
    rewrite Hstep in Hpastel. simpl log in Hpastel.
    unfold class_of, Triangle_class, class_loop in Hpastel |- *.
    rewrite (Triangle_loop_runs host this _ g Hg) in Hpastel |- *.
    unfold events in Hpastel |- *. simpl fst in Hpastel |- *. auto.
  - destruct (worldMatrix this) as [w|] eqn:Hw; [|discriminate].
    exists g, w. split; [reflexivity|]. split; [reflexivity|].
    rewrite Hstep in Hpastel. simpl log in Hpastel.
    unfold class_of, Rotating_class, class_loop in Hpastel |- *.
    rewrite (Rotating_loop_runs host lib this _ g w Hg Hw) in Hpastel |- *.
    unfold events in Hpastel |- *. simpl fst in Hpastel |- *. auto.
Qed.

(** The frame of the example above, by the theorem. *)
Lemma frame_calls_in_order_witness :
  let C := class_of browser gl_matrix Spinning in
  let P := run C [ANew] start in
  exists this, nth_error (heap P) 0 = Some this /\
  exists g w,
    gl this = obj g /\
    (Spinning = Spinning -> worldMatrix this = Some w) /\
    log (step C P AFrame) =
      log P
      ++ (let now := on_Date_now browser (List.length (log P)) in
          [ EDateNow now;
            EGL (obj g)
              (GL.uniformMatrix4fv (worldAttributeLocation this) false
                 (mat4_rotate gl_matrix w (Rotating.identityMatrix gl_matrix)
                    (Rotating.angle_at now) [0; 1; 0]%R));
            EGL (obj g) (GL.clear (color_and_depth browser));
            EGL (obj g) (GL.drawArrays (TRIANGLES browser) 0 3) ])
      ++ (if running this then [ERequestAnimationFrame] else []) /\
    In (EGL (obj g) (GL.clearColor 0.75 0.85 0.8 1)) (log P) /\
    Forall pastel_call (log (step C P AFrame)).
Proof.
  cbv zeta.
  assert (E : option_map (fun _ => tt)
                (nth_error (heap (run (class_of browser gl_matrix Spinning) [ANew] start)) 0)
              = Some tt) by (lazy; reflexivity).
  apply option_map_some in E. destruct E as [this [Hthis _]].
  exists this. split; [exact Hthis|].
  apply (frame_calls_in_order browser gl_matrix Spinning [ANew] 0 [] this);
    [lazy; reflexivity|exact Hthis].
Defined.

(** C9.  [stop] twice is [stop] once, for the method and for the page; the
    flag is set when the constructor has run; and once the flag of an object
    is down, nothing the page does puts it up again. *)
Theorem stop_is_idempotent_and_final :
  forall host lib v,
    let C := class_of host lib v in
    (forall this n n',
       Common.stop (receiver (Common.stop this n)) n' = Common.stop this n) /\
    (forall P i, step C (step C P (AStop i)) (AStop i) = step C P (AStop i)) /\
    (forall n, running (receiver (class_constructor C new_object n)) = true) /\
    (forall acts P i this,
       nth_error (heap P) i = Some this ->
       running this = false ->
       exists this',
         nth_error (heap (run C acts P)) i = Some this' /\ running this' = false).
Proof.
  intros host lib v C. split; [|split; [|split]].
  - reflexivity.
  - apply stop_twice.
  - intros n. apply (constructor_requests host lib v n).
  - intros acts P i this Hi Hr.
    destruct (run_keeps host lib v acts P i this Hi) as [this' [Hi' [_ Hr']]].
    exists this'. auto.
Qed.

(** An object that was stopped stays stopped through frames, a further
    [new App()] and a further [stop]. *)
Lemma stop_is_idempotent_and_final_witness :
  let C := class_of browser gl_matrix Flat in
  let P := run C [ANew; AStop 0] start in
  exists this',
    nth_error (heap (run C [AFrame; ANew; AFrame; AStop 0; AFrame] P)) 0 = Some this' /\
    running this' = false.
Proof.
  cbv zeta.
  assert (E : option_map running
                (nth_error (heap (run (class_of browser gl_matrix Flat)
                                     [ANew; AStop 0] start)) 0) = Some false)
    by (lazy; reflexivity).
  apply option_map_some in E. destruct E as [this [Hthis Hr]].
  exact (proj2 (proj2 (proj2 (stop_is_idempotent_and_final browser gl_matrix Flat)))
           [AFrame; ANew; AFrame; AStop 0; AFrame]
           (run (class_of browser gl_matrix Flat) [ANew; AStop 0] start)
           0 this Hthis Hr).
Defined.


(** The uniform calls of a page of [part_001] with one object, three frames on:
    three lookups, the three initial uploads, and one upload a frame. *)
Example uniform_calls_of_four_frames :
  let P := run (class_of browser gl_matrix Spinning) [ANew; AFrame; AFrame; AFrame] start in
  map (fun e => match e with
                | EGL _ (GL.getUniformLocation _ name _) => (name, null)
                | EGL _ (GL.uniformMatrix4fv location _ _) => (""%string, location)
                | _ => (""%string, null)
                end)
      (filter is_uniform_call (log P)) =
    [ ("matrixWorld", null); ("matrixView", null); ("matrixProjection", null);
      ("", obj 129); ("", obj 130); ("", obj 131);
      ("", obj 129); ("", obj 129); ("", obj 129); ("", obj 129) ]%string%positive.
Proof. lazy. reflexivity. Qed.

(** * More of the code *)

(** ** The constructors at their edges *)

(** X1.  In each of the three programs, when the page has no element
    "game-surface": the constructor looks the element up, makes no other
    call, and ends in the [TypeError] of [this.canvas.getContext]; no field
    of the object has been set. *)
Theorem constructor_without_canvas :
  forall host lib n construct,
    In construct [ Surface.constructor host; Triangle.constructor host;
                   Rotating.constructor host lib ] ->
    on_getElementById host n "game-surface" = null ->
    construct new_object n =
      ([EGetElementById "game-surface" null], new_object, Throw TypeError).
Proof.
  intros host lib n construct Hin Hnull.
  destruct Hin as [<-|[<-|[<-|[]]]];
    autounfold with methods; cbn; rewrite Hnull; reflexivity.
Qed.

Lemma constructor_without_canvas_witness :
  Rotating.constructor page_without_canvas gl_matrix new_object 0 =
    ([EGetElementById "game-surface" null], new_object, Throw TypeError).
Proof.
  exact (constructor_without_canvas page_without_canvas gl_matrix 0
           (Rotating.constructor page_without_canvas gl_matrix)
           (or_intror (or_intror (or_introl eq_refl))) eq_refl).
Defined.

(** X2.  [part_000], whatever the browser answers: the constructor never
    requests an animation frame; on the context it has got it makes exactly
    two calls, [clearColor] with the pastel colour and then [clear] of the
    colour and the depth buffer, and ends normally; without a context it
    makes no call on one and throws. *)
Theorem part_000_clears_once :
  forall host n,
    let out := Surface.constructor host new_object n in
    requests (events out) = 0 /\
    Forall (fun e => match e with EGL g _ => g = gl (receiver out) | _ => True end)
           (events out) /\
    flat_map gl_call (events out) =
      (if truthy (gl (receiver out))
       then [ GL.clearColor 0.75 0.85 0.8 1; GL.clear (color_and_depth host) ]
       else []) /\
    result out = if truthy (gl (receiver out)) then Ok tt else Throw TypeError.
Proof.
  intros host n.
  exec_in (Surface.constructor host new_object n);
    repeat split; try reflexivity; repeat constructor.
Qed.

(** ** The loop keeps itself going *)

Section Alive.

Variable host : Host.
Variable lib : GlMatrix.
Variable v : Variant.

Local Abbreviation C := (class_of host lib v).



End Alive.



Example six_draws :
  List.length (filter is_drawArrays
    (log (run (class_of browser gl_matrix Spinning)
            [ANew; AFrame; AFrame; AFrame; AFrame; AFrame] start))) = 6.
Proof. lazy. reflexivity. Qed.

(** ** The context of every call *)

Lemma emits_interact_answered :
  forall phi (A : Type) (answer : nat -> A) (ev : A -> Event),
    (forall n, phi (ev (answer n))) -> emits phi (interact answer ev).
Proof. intros phi A answer ev H this n. repeat constructor. apply H. Qed.

Lemma on_context_more :
  forall known known' e,
    (forall g, In g known -> In g known') -> on_context known e -> on_context known' e.
Proof.
  intros known known' [] Hincl; simpl; auto. intros [Hn Hin]. auto.
Qed.

Lemma Forall_on_context_more :
  forall known known' es,
    (forall g, In g known -> In g known') ->
    Forall (on_context known) es -> Forall (on_context known') es.
Proof.
  intros known known' es Hincl H. eapply Forall_impl; [|exact H].
  intros e. now apply on_context_more.
Qed.

Lemma constructor_on_context :
  forall host lib v n,
    let out := class_constructor (class_of host lib v) new_object n in
    Forall (on_context (flat_map context_given (events out))) (events out).
Proof.
  intros host lib [|] n; unfold_class.
  - exec_in (Triangle.constructor host new_object n);
      repeat (apply Forall_cons; [first [exact I | split; [discriminate|cbn; tauto]]|]);
      apply Forall_nil.
  - exec_in (Rotating.constructor host lib new_object n);
      repeat (apply Forall_cons; [first [exact I | split; [discriminate|cbn; tauto]]|]);
      apply Forall_nil.
Qed.

Lemma loop_on_own_context :
  forall host lib v this n,
    Forall (fun e => match e with
                     | EGL g _ => g <> null /\ g = gl this
                     | _ => True
                     end)
           (events (class_loop (class_of host lib v) this n)).
Proof.
  intros host lib [|] [c g vs fs p w l r] n; simpl.
  - destruct g; [constructor|].
    destruct r; repeat constructor; discriminate.
  - destruct w as [w|]; [|repeat constructor].
    destruct g; [repeat constructor|].
    destruct r; repeat constructor; discriminate.
Qed.

Section Contexts.

Variable host : Host.
Variable lib : GlMatrix.
Variable v : Variant.

Local Abbreviation C := (class_of host lib v).

Lemma contexts_known_step :
  forall P a, contexts_known P -> contexts_known (step C P a).
Proof.
  intros P a [Hlog Hheap].
  assert (Hgrows : forall g, In g (flat_map context_given (log P)) ->
                             In g (flat_map context_given (log (step C P a)))).
  { intros g Hg. destruct a as [|i|]; simpl.
    - rewrite flat_map_app. apply in_or_app. now left.
    - destruct (nth_error (heap P) i); simpl; [|assumption].
      rewrite flat_map_app. apply in_or_app. now left.
    - destruct (callbacks P) as [|i rest]; [assumption|].
      destruct (nth_error (heap P) i); simpl; [|assumption].
      rewrite flat_map_app. apply in_or_app. now left. }
  split.
  - destruct a as [|i|]; simpl.
    + apply Forall_app. split.
      * eapply Forall_on_context_more; [|exact Hlog].
        intros g Hg. rewrite flat_map_app. apply in_or_app. now left.
      * eapply Forall_on_context_more;
          [|apply (constructor_on_context host lib v (List.length (log P)))].
        intros g Hg. rewrite flat_map_app. apply in_or_app. now right.
    + destruct (nth_error (heap P) i); simpl; [|assumption].
      now rewrite app_nil_r.
    + destruct (callbacks P) as [|i rest]; [assumption|].
      destruct (nth_error (heap P) i) as [this|] eqn:Hi; simpl; [|assumption].
      apply Forall_app. split.
      * eapply Forall_on_context_more; [|exact Hlog].
        intros g Hg. rewrite flat_map_app. apply in_or_app. now left.
      * eapply Forall_impl;
          [|apply (loop_on_own_context host lib v this (List.length (log P)))].
        intros [] He; simpl; auto. destruct He as [Hn ->]. split; [assumption|].
        rewrite flat_map_app. apply in_or_app. left.
        destruct (Hheap i this Hi) as [Hnull|Hin]; [congruence|assumption].
  - intros j this Hj.
    destruct (nth_error (heap P) j) as [old|] eqn:Hold.
    + destruct (step_keeps host lib v P a j old Hold) as [this' [Hj' [[_ [Hg _]] _]]].
      rewrite Hj in Hj'. injection Hj' as <-. rewrite <- Hg.
      destruct (Hheap j old Hold) as [Hnull|Hin]; [now left|right; auto].
    + apply nth_error_None in Hold. destruct a as [|i|].
      * simpl in Hj. rewrite nth_error_app2 in Hj by assumption.
        destruct (j - List.length (heap P)) as [|k]; simpl in Hj;
          [|destruct k; discriminate].
        injection Hj as <-.
        destruct (constructor_own_handles host lib v (List.length (log P)))
          as [_ [Hown _]].
        simpl in Hown. destruct Hown as [Hnull|Hin]; [left; congruence|right].
        simpl. rewrite flat_map_app. apply in_or_app. now right.
      * assert (Hnone : nth_error (heap (step C P (AStop i))) j = None).
        { apply nth_error_None. simpl.
          destruct (nth_error (heap P) i); simpl; [rewrite length_update|]; assumption. }
        congruence.
      * assert (Hnone : nth_error (heap (step C P AFrame)) j = None).
        { apply nth_error_None. simpl.
          destruct (callbacks P) as [|i rest]; [assumption|].
          destruct (nth_error (heap P) i); simpl; [rewrite length_update|]; assumption. }
        congruence.
Qed.

Lemma contexts_known_reachable :
  forall acts, contexts_known (run C acts start).
Proof.
  assert (H : forall acts P, contexts_known P -> contexts_known (run C acts P)).
  { induction acts as [|a acts IH]; intros P HP; simpl; auto using contexts_known_step. }
  intros acts. apply H. split; [constructor|].
  intros i this Hi. destruct i; simpl in Hi; discriminate Hi.
Qed.

Lemma constructor_context_answers :
  emits (context_answer host) (class_constructor C).
Proof.
  destruct v; unfold_class; unfold_calls;
    repeat first
      [ apply emits_bind; [|intro]
      | apply emits_ret | apply emits_throw | apply emits_get | apply emits_put
      | apply emits_gl_do; intro
      | apply emits_gl_ask; intros
      | apply emits_emit
      | match goal with
        | |- emits _ (interact _ (EGetContext _ _)) =>
            apply emits_interact_answered; intro
        end
      | apply emits_interact; intro
      | match goal with
        | |- emits _ (if ?b then _ else _) => destruct b
        | |- emits _ (match ?x with null => _ | obj _ => _ end) => destruct x
        | |- emits _ (match ?x with None => _ | Some _ => _ end) => destruct x
        end ];
    first [exact I | eexists; reflexivity].
Qed.

Lemma loop_context_answers :
  emits (context_answer host) (class_loop C).
Proof.
  destruct v; unfold_class; unfold_calls; each_call; exact I.
Qed.

End Contexts.

(** X4.  On a page of either drawing class, after any history: every call on
    a rendering context was made on a non-null context that a [getContext]
    of the page had returned.  So in a browser that never returns a context
    the page never calls WebGL, and no frame is ever queued. *)
Theorem calls_are_on_a_context_the_page_was_given :
  forall host lib v acts,
    let P := run (class_of host lib v) acts start in
    Forall (on_context (flat_map context_given (log P))) (log P) /\
    ((forall n c contextId, on_getContext host n c contextId = null) ->
     filter is_gl (log P) = [] /\ callbacks P = []).
Proof.
  intros host lib v acts. cbv zeta.
  destruct (contexts_known_reachable host lib v acts) as [Hlog Hheap].
  split; [exact Hlog|]. intros Hnone.
  assert (Hanswers : Forall (context_answer host)
                       (log (run (class_of host lib v) acts start))).
  { apply log_emits;
      [apply constructor_context_answers|apply loop_context_answers|constructor]. }
  assert (Hnull : forall g,
             In g (flat_map context_given (log (run (class_of host lib v) acts start))) ->
             g = null).
  { intros g Hg. apply in_flat_map in Hg. destruct Hg as [e [He Hge]].
    rewrite Forall_forall in Hanswers. specialize (Hanswers e He).
    destruct e; simpl in Hge; try contradiction.
    destruct Hge as [<-|[]]. destruct Hanswers as [n ->]. apply Hnone. }
  split.
  - apply filter_none. rewrite Forall_forall in Hlog |- *.
    intros e He. specialize (Hlog e He). destruct e; try reflexivity.
    destruct Hlog as [Hn Hin]. elim Hn. now apply Hnull.
  - destruct (well_queued_reachable host lib v acts) as [Hdraw _].
    destruct (callbacks (run (class_of host lib v) acts start)) as [|i rest];
      [reflexivity|].
    destruct (Hdraw i (or_introl eq_refl)) as [this [Hi Hcan]].
    unfold can_draw in Hcan.
    destruct (Hheap i this Hi) as [Hg|Hg];
      [|apply Hnull in Hg]; rewrite Hg in Hcan; discriminate Hcan.
Qed.

(** Without WebGL, two objects and three callbacks later. *)
Lemma calls_are_on_a_context_the_page_was_given_witness :
  let P := run (class_of browser_without_webgl gl_matrix Spinning)
             [ANew; AFrame; ANew; AFrame; AFrame] start in
  filter is_gl (log P) = [] /\ callbacks P = [].
Proof.
  exact (proj2 (calls_are_on_a_context_the_page_was_given
                  browser_without_webgl gl_matrix Spinning
                  [ANew; AFrame; ANew; AFrame; AFrame])
           (fun _ _ _ => eq_refl)).
Defined.

(** ** The layout of the vertices *)

Lemma layout_reads_inside :
  forall host v e,
    layout_call host v e ->
    reads_inside (BYTES_PER_ELEMENT * Z.of_nat (List.length (triangle_data v))) e.
Proof.
  intros host v e He.
  destruct e as [| |g call| | |]; try exact I. destruct call; try exact I.
  unfold layout_call in He. unfold reads_inside.
  destruct He as [_ [_ [Hstride Hshape]]]. intros k Hk.
  replace (Z.of_nat (List.length (triangle_data v))) with (3 * floats_per_vertex v)%Z
    by (destruct v; reflexivity).
  unfold floats_per_vertex, BYTES_PER_ELEMENT in *.
  destruct v; unfold position_size in *;
    destruct Hshape as [[-> ->]|[-> ->]]; subst stride; lia.
Qed.

(** X5.  On a page of either drawing class, after any history: every
    [vertexAttribPointer] describes floats, not normalized, with the stride of
    one vertex (5 or 6 floats of 4 bytes), and is either the position at
    offset 0 or the three colour components right after the position; so for
    each of the three vertices a draw asks for, what the attribute reads lies
    inside the bytes of the literal array that was uploaded. *)
Theorem attributes_stay_inside_the_buffer :
  forall host lib v acts,
    let P := run (class_of host lib v) acts start in
    Forall (fun e =>
              layout_call host v e /\
              reads_inside
                (BYTES_PER_ELEMENT * Z.of_nat (List.length (triangle_data v))) e)
           (log P).
Proof.
  intros host lib v acts. cbv zeta.
  assert (H : Forall (layout_call host v) (log (run (class_of host lib v) acts start))).
  { apply log_emits; [| |constructor];
      destruct v; unfold_class; unfold_calls; each_call;
      first [exact I | unfold layout_call, floats_per_vertex, position_size;
                       repeat split; auto]. }
  eapply Forall_impl; [|exact H].
  intros e He. split; [exact He|]. now apply (layout_reads_inside host).
Qed.

(** ** The program in use *)





(** Two objects on one context: the frames of the first draw with the program
    of the second selected. *)
Example program_in_use_with_two_objects :
  let P := run (class_of browser gl_matrix Spinning) [ANew; ANew; AFrame; AFrame] start in
  map program (heap P) = [obj 112; obj 152]%positive /\
  map gl (heap P) = [obj 2; obj 2]%positive /\
  flat_map program_used (log P) = [obj 112; obj 152]%positive.
Proof. lazy. repeat split; reflexivity. Qed.

(** ** The triangle *)

(** X8.  The literal vertices of both classes: the corners run
    counter-clockwise, as the comment in the source says; every coordinate
    lies in the clip range from -1 to 1; the colours are pure red, green and
    blue; and the triangle of [part_001] is the one of [cube.ts] in the plane
    z = 0. *)
Theorem triangle_is_counter_clockwise :
  forall v,
    (twice_signed_area (corner v 0) (corner v 1) (corner v 2) > 0)%R /\
    (forall k, k < 3 ->
       (-1 <= fst (corner v k) <= 1)%R /\ (-1 <= snd (corner v k) <= 1)%R) /\
    (colour v 0 = (1, 0, 0) /\ colour v 1 = (0, 1, 0) /\ colour v 2 = (0, 0, 1))%R /\
    (forall k, k < 3 ->
       corner Spinning k = corner Flat k /\
       nth (k * 6 + 2) Rotating.triangleVertices 1%R = 0%R).
Proof.
  intros v. split; [|split; [|split]].
  - destruct v; lazy -[Rplus Rminus Rmult Rdiv Ropp Rinv IZR Rgt Rge Rle Rlt]; lra.
  - intros k Hk.
    destruct k as [|[|[|k]]]; [| | |lia];
      destruct v; lazy -[Rplus Rminus Rmult Rdiv Ropp Rinv IZR Rgt Rge Rle Rlt]; lra.
  - destruct v; unfold colour;
      lazy -[Rplus Rminus Rmult Rdiv Ropp Rinv IZR Rgt Rge Rle Rlt];
      repeat split; repeat f_equal; lra.
  - intros k Hk.
    destruct k as [|[|[|k]]]; [| | |lia];
      lazy -[Rplus Rminus Rmult Rdiv Ropp Rinv IZR Rgt Rge Rle Rlt];
      (split; [f_equal; lra|lra]).
Qed.

(** ** Shaders, attributes and the source text *)

(** X9.  A constructor run of either drawing class, whatever the browser
    answers: if it leaves an object that can draw, it has created a vertex
    shader and given it the vertex source of the class, created a fragment
    shader and given it the fragment source, compiled each, created a
    program, attached these two shaders to it, linked and validated it, in
    this order, and the object holds these three handles; otherwise it has
    made none of these calls. *)
Theorem shaders_go_into_the_program :
  forall host lib v n,
    let out := class_constructor (class_of host lib v) new_object n in
    let this := receiver out in
    flat_map shader_call (events out) =
      if can_draw v this then
        [ Created (VERTEX_SHADER host) (vertexShader this);
          Source (vertexShader this) (vertex_source v);
          Compiled (vertexShader this);
          Created (FRAGMENT_SHADER host) (fragmentShader this);
          Source (fragmentShader this) (fragment_source v);
          Compiled (fragmentShader this);
          ProgramCreated (program this);
          Attached (program this) (vertexShader this);
          Attached (program this) (fragmentShader this);
          Linked (program this);
          Validated (program this) ]
      else [].
Proof.
  intros host lib [|] n; unfold_class; unfold can_draw.
  - exec_in (Triangle.constructor host new_object n); reflexivity.
  - exec_in (Rotating.constructor host lib new_object n); reflexivity.
Qed.





(** A name the source does not declare is found missing. *)
Example undeclared_uniform :
  occurs (uniform_declaration "matrixWorld") (vertex_source Flat) = false /\
  occurs (attribute_declaration 3 "vertPosition") (vertex_source Flat) = false.
Proof. vm_compute. split; reflexivity. Qed.

(** ** Nothing is used before the browser has returned it *)

Lemma in_order_more :
  forall es known known',
    (forall r, In r known -> In r known') -> in_order known es -> in_order known' es.
Proof.
  induction es as [|e es IH]; intros known known' Hincl; simpl; auto.
  intros [Hused Hrest]. split; [auto|].
  apply (IH (handles_returned e ++ known)); [|assumption].
  intros r Hr. apply in_or_app. apply in_app_or in Hr. destruct Hr; auto.
Qed.

Lemma in_order_app :
  forall es es' known,
    in_order known es ->
    in_order (flat_map handles_returned es ++ known) es' ->
    in_order known (es ++ es').
Proof.
  induction es as [|e es IH]; intros es' known; simpl; auto.
  intros [Hused Hrest] Hes'. split; [assumption|].
  apply IH; [assumption|].
  eapply in_order_more; [|exact Hes'].
  intros r Hr. apply in_or_app. apply in_app_or in Hr.
  destruct Hr as [Hr|Hr]; [|right; apply in_or_app; now right].
  apply in_app_or in Hr. destruct Hr as [Hr|Hr]; [right; apply in_or_app|]; auto.
Qed.

Ltac known_handle :=
  let r := fresh "r" in
  let Hr := fresh "Hr" in
  intros r Hr; cbn in Hr |- *;
  repeat match goal with
         | H : _ \/ _ |- _ => destruct H as [H|H]
         | H : False |- _ => destruct H
         end;
  subst; tauto.

Lemma constructor_in_order :
  forall host lib v n known,
    in_order known (events (class_constructor (class_of host lib v) new_object n)).
Proof.
  intros host lib [|] n known; unfold_class.
  - exec_in (Triangle.constructor host new_object n);
      repeat (split; [known_handle|]); exact I.
  - exec_in (Rotating.constructor host lib new_object n);
      repeat (split; [known_handle|]); exact I.
Qed.

Lemma constructor_handles_known :
  forall host lib v n,
    let out := class_constructor (class_of host lib v) new_object n in
    can_draw v (receiver out) = true ->
    handles_known v (events out) (receiver out).
Proof.
  intros host lib [|] n; unfold_class; unfold can_draw, handles_known.
  - exec_in (Triangle.constructor host new_object n);
      first [discriminate | intros _; repeat split; first [tauto | discriminate]].
  - exec_in (Rotating.constructor host lib new_object n);
      first [discriminate | intros _; repeat split; first [tauto | intros _; tauto]].
Qed.

Lemma loop_in_order :
  forall host lib v this n known,
    In (gl this) known ->
    In (program this) known ->
    (v = Spinning -> In (worldAttributeLocation this) known) ->
    in_order known (events (class_loop (class_of host lib v) this n)).
Proof.
  intros host lib [|] [c g vs fs p w l r] n known Hg Hp Hl; simpl in Hg, Hp, Hl.
  - destruct g as [|g]; [exact I|].
    destruct r; cbn; repeat split; intros x Hx; cbn in Hx;
      repeat destruct Hx as [Hx|Hx]; subst; auto; contradiction.
  - specialize (Hl eq_refl).
    destruct w as [w|]; [|destruct g; cbn; repeat split; intros x []].
    destruct g as [|g]; [cbn; repeat split; intros x []|].
    destruct r; cbn; repeat split; intros x Hx; cbn in Hx;
      repeat destruct Hx as [Hx|Hx]; subst; auto; contradiction.
Qed.

Lemma loop_returns_nothing :
  forall host lib v this n,
    flat_map handles_returned (events (class_loop (class_of host lib v) this n)) = [].
Proof.
  intros host lib [|] [c g vs fs p w l r] n; simpl.
  - destruct g; [reflexivity|]. destruct r; reflexivity.
  - destruct w as [w|]; [|destruct g; reflexivity].
    destruct g; [reflexivity|]. destruct r; reflexivity.
Qed.

Section Order.

Variable host : Host.
Variable lib : GlMatrix.
Variable v : Variant.

Local Abbreviation C := (class_of host lib v).

Lemma ordered_step :
  forall P a,
    well_queued v P ->
    (in_order [] (log P) /\
     forall i this,
       nth_error (heap P) i = Some this ->
       can_draw v this = true ->
       handles_known v (log P) this) ->
    in_order [] (log (step C P a)) /\
    forall i this,
      nth_error (heap (step C P a)) i = Some this ->
      can_draw v this = true ->
      handles_known v (log (step C P a)) this.
Proof.
  intros P a [Hdraw _] [Hlog Hheap].
  assert (Hgrows : forall this, handles_known v (log P) this ->
                                handles_known v (log (step C P a)) this).
  { intros this [Hg [Hp Hl]].
    assert (Hmore : forall r, In r (flat_map handles_returned (log P)) ->
                              In r (flat_map handles_returned (log (step C P a)))).
    { intros r Hr. destruct a as [|i|]; simpl.
      - rewrite flat_map_app. apply in_or_app. now left.
      - destruct (nth_error (heap P) i); simpl; [|assumption].
        rewrite flat_map_app. apply in_or_app. now left.
      - destruct (callbacks P) as [|i rest]; [assumption|].
        destruct (nth_error (heap P) i); simpl; [|assumption].
        rewrite flat_map_app. apply in_or_app. now left. }
    repeat split; auto. }
  split.
  - destruct a as [|i|]; simpl.
    + apply in_order_app; [assumption|]. apply constructor_in_order.
    + destruct (nth_error (heap P) i); simpl; [|assumption]. now rewrite app_nil_r.
    + destruct (callbacks P) as [|i rest] eqn:Hc; [assumption|].
      destruct (nth_error (heap P) i) as [this|] eqn:Hi; simpl; [|assumption].
      apply in_order_app; [assumption|].
      destruct (Hdraw i) as [this' [Hi' Hcan]]; [first [now left | rewrite Hc; now left]|].
      rewrite Hi in Hi'. injection Hi' as <-.
      destruct (Hheap i this Hi Hcan) as [Hg [Hp Hl]].
      apply loop_in_order; [| |intros Hv]; apply in_or_app; left; auto.
  - intros j this Hj Hcan.
    destruct (nth_error (heap P) j) as [old|] eqn:Hold.
    + destruct (step_keeps host lib v P a j old Hold)
        as [this' [Hj' [[_ [Hg [_ [_ [Hp Hl]]]]] _]]].
      rewrite Hj in Hj'. injection Hj' as <-.
      assert (Hold_can : can_draw v old = true).
      { rewrite (step_object host lib v P a j old Hold) in Hj. injection Hj as Hthis.
        subst this. destruct a as [|i|].
        - assumption.
        - destruct (Nat.eqb i j); [destruct old|]; assumption.
        - destruct (callbacks P) as [|i rest]; [assumption|].
          destruct (Nat.eqb i j); [|assumption].
          now rewrite loop_keeps_can_draw in Hcan. }
      destruct (Hgrows old (Hheap j old Hold Hold_can)) as [Hg' [Hp' Hl']].
      unfold handles_known. rewrite <- Hg, <- Hp, <- Hl. auto.
    + apply nth_error_None in Hold. destruct a as [|i|].
      * simpl in Hj. rewrite nth_error_app2 in Hj by assumption.
        destruct (j - List.length (heap P)) as [|k]; simpl in Hj;
          [|destruct k; discriminate].
        injection Hj as Hthis.
        pose proof (constructor_handles_known host lib v (List.length (log P))) as Hk.
        cbv zeta in Hk. rewrite Hthis in Hk. destruct (Hk Hcan) as [Hg [Hp Hl]].
        unfold handles_known. simpl log. rewrite flat_map_app.
        repeat split; try intros Hv; apply in_or_app; right; auto.
      * assert (Hnone : nth_error (heap (step C P (AStop i))) j = None).
        { apply nth_error_None. simpl.
          destruct (nth_error (heap P) i); simpl; [rewrite length_update|]; assumption. }
        congruence.
      * assert (Hnone : nth_error (heap (step C P AFrame)) j = None).
        { apply nth_error_None. simpl.
          destruct (callbacks P) as [|i rest]; [assumption|].
          destruct (nth_error (heap P) i); simpl; [rewrite length_update|]; assumption. }
        congruence.
Qed.

End Order.

(** X11.  On a page of either drawing class, after any history: every object
    the page has passed to the browser in a call (the canvas, a context, a
    shader, a program, a buffer, a uniform location) is one the browser had
    returned to the page in an earlier call. *)
Theorem nothing_is_used_before_it_is_returned :
  forall host lib v acts,
    in_order [] (log (run (class_of host lib v) acts start)).
Proof.
  intros host lib v acts.
  assert (H : forall acts P,
             well_queued v P ->
             (in_order [] (log P) /\
              forall i this,
                nth_error (heap P) i = Some this ->
                can_draw v this = true ->
                handles_known v (log P) this) ->
             in_order [] (log (run (class_of host lib v) acts P))).
  { clear acts. induction acts as [|a acts IH]; intros P HW HP; simpl; [apply HP|].
    apply IH; [now apply well_queued_step|now apply ordered_step]. }
  apply H; [apply well_queued_start|].
  split; [exact I|]. intros i this Hi. destruct i; simpl in Hi; discriminate Hi.
Qed.

(** A log that uses a shader nobody has returned is not in order. *)
Example out_of_order :
  ~ in_order [] [ EGetElementById "game-surface" (obj 1);
                  EGetContext (obj 1) "webgl" (obj 2);
                  EGL (obj 2) (GL.compileShader (obj 7)) ].
Proof.
  cbn. intros [_ [_ [H _]]]. specialize (H (obj 7) (or_intror (or_introl eq_refl))).
  cbn in H. intuition discriminate.
Qed.
